(** * Annotating an uploaded workbook with estimates

    A shallow embedding of [lib/annotate-uploaded-excel] (the export engine
    behind [exportUploadedExcelWithEstimates]) and the properties of its
    sheet selection, header location, row resolution and column appending.

    Conventions of the embedding.
    - JavaScript strings are [string]s over the ASCII range; white space
      ([\s], [trim]) is the six ASCII white-space characters and
      [toLowerCase] folds [A-Z].
    - JavaScript numbers are integers ([Z]): a record's [featureIndex] is an
      integer, and every other number is only copied from a record to a cell.
      A non-finite number ([NaN]) is the [None] of [option Z].
    - The bytes of a spreadsheet file are identified with the workbook they
      parse to ([XLSX.read]) and serialise from ([XLSX.write]). *)

From Stdlib Require Import Ascii.
From stdpp Require Import gmap strings list pretty sorting.
From stdpp Require functions.

(** ** JavaScript values and strings *)

Module Js.

(** A value of type [unknown] as it occurs in a row array. *)
Inductive JsVal : Type :=
| JUndef
| JStr (s : string)
| JNum (n : Z).

Global Instance JsVal_eq_dec : EqDecision JsVal.
Proof. solve_decision. Defined.

Global Instance JsVal_inhabited : Inhabited JsVal := populate JUndef.

(** [String(v ?? "")]. *)
Definition to_String (v : JsVal) : string :=
  match v with
  | JUndef => ""
  | JStr s => s
  | JNum n => pretty n
  end.

(** [s.replace(/\s+/g, " ")]: [in_run] tells that the previous character
    belonged to a white-space run that has been replaced already. *)
Fixpoint collapse_go (in_run : bool) (s : string) : string :=
  match s with
  | "" => ""
  | String a s' =>
      if Ascii.is_space a
      then (if in_run then collapse_go true s'
            else String " "%char (collapse_go true s'))
      else String a (collapse_go false s')
  end.
Definition collapse_ws : string → string := collapse_go false.

Fixpoint trimStart (s : string) : string :=
  match s with
  | "" => ""
  | String a s' => if Ascii.is_space a then trimStart s' else s
  end.
Definition trimEnd (s : string) : string :=
  String.rev (trimStart (String.rev s)).
Definition trim (s : string) : string := trimEnd (trimStart s).

Definition lower_char (a : ascii) : ascii :=
  let n := Ascii.N_of_ascii a in
  if ((65 <=? n) && (n <=? 90))%N then Ascii.ascii_of_N (n + 32) else a.
Fixpoint toLowerCase (s : string) : string :=
  match s with
  | "" => ""
  | String a s' => String (lower_char a) (toLowerCase s')
  end.

(** [StringToNumber] on the integer literals: optional white space around
    an optional sign and decimal digits; the empty (or all white-space)
    string is [0].  Fraction, exponent, radix and [Infinity] literals are
    read as [NaN]: they denote no integer written this way, and a lookup
    of a non-integer among integer indices finds nothing either. *)
Fixpoint digits_go (acc : Z) (s : string) : option Z :=
  match s with
  | "" => Some acc
  | String a s' =>
      match Ascii.is_nat a with
      | Some d => digits_go (10 * acc + Z.of_nat d)%Z s'
      | None => None
      end
  end.
Definition digits (s : string) : option Z :=
  match s with
  | "" => None
  | _ => digits_go 0%Z s
  end.
Definition StringToNumber (s : string) : option Z :=
  match trim s with
  | "" => Some 0%Z
  | String "+"%char d => digits d
  | String "-"%char d => Z.opp <$> digits d
  | d => digits d
  end.

(** [Number(v)], with [None] for a value [Number.isFinite] rejects. *)
Definition ToNumber (v : JsVal) : option Z :=
  match v with
  | JUndef => None
  | JStr s => StringToNumber s
  | JNum n => Some n
  end.

(** [arr[i]]: reading past the end of an array gives [undefined]. *)
Definition at_index (row : list JsVal) (i : nat) : JsVal :=
  default JUndef (row !! i).

End Js.
Export Js.

(** ** The anchored patterns of the column matcher *)

Module RegExp.

(** The patterns used are sequences of literal characters, optional
    literal characters ([\.?]) and white-space runs ([\s*]), anchored at
    both ends. *)
Inductive Atom : Type :=
| Lit (c : ascii)
| Opt (c : ascii)
| WsStar.

Definition RegExp : Type := list Atom.

Fixpoint test (re : RegExp) : string → bool :=
  match re with
  | [] => λ s, bool_decide (s = "")
  | Lit c :: re' => λ s,
      match s with
      | String a s' => bool_decide (a = c) && test re' s'
      | "" => false
      end
  | Opt c :: re' => λ s,
      test re' s ||
      match s with
      | String a s' => bool_decide (a = c) && test re' s'
      | "" => false
      end
  | WsStar :: re' =>
      fix skip (s : string) : bool :=
        test re' s ||
        match s with
        | String a s' => Ascii.is_space a && skip s'
        | "" => false
        end
  end.

Fixpoint lits (s : string) : RegExp :=
  match s with
  | "" => []
  | String a s' => Lit a :: lits s'
  end.

(** [/^feature$/, /^features$/, /^feature\s*name$/, /^title$/, /^name$/] *)
Definition featureCandidates : list RegExp :=
  [ lits "feature";
    lits "features";
    lits "feature" ++ WsStar :: lits "name";
    lits "title";
    lits "name" ].

(** [/^feature\s*index$/, /^index$/, /^sr\.?\s*no\.?$/, /^s\.?\s*no\.?$/] *)
Definition featureIndexCandidates : list RegExp :=
  [ lits "feature" ++ WsStar :: lits "index";
    lits "index";
    lits "sr" ++ Opt "."%char :: WsStar :: lits "no" ++ [Opt "."%char];
    lits "s" ++ Opt "."%char :: WsStar :: lits "no" ++ [Opt "."%char] ].

End RegExp.

(** ** Helpers of the engine *)

Definition norm (v : JsVal) : string :=
  toLowerCase (trim (collapse_ws (to_String v))).

Definition isRowEmpty (row : list JsVal) : bool :=
  forallb (λ c, bool_decide (norm c = "")) row.

Fixpoint findHeaderRowIndex_from (i : nat) (aoa : list (list JsVal)) : option nat :=
  match aoa with
  | [] => None
  | row :: rest =>
      if (0 <? length row) && negb (isRowEmpty row) then Some i
      else findHeaderRowIndex_from (S i) rest
  end.

Definition findHeaderRowIndex (aoa : list (list JsVal)) : nat :=
  default 0 (findHeaderRowIndex_from 0 aoa).

Fixpoint findIndex {A : Type} (p : A → bool) (l : list A) : option nat :=
  match l with
  | [] => None
  | x :: l' => if p x then Some 0 else S <$> findIndex p l'
  end.

(** [pickColumnIndex]; [None] stands for the result [-1]. *)
Fixpoint pickColumnIndex_go (h : list string) (candidates : list RegExp.RegExp)
  : option nat :=
  match candidates with
  | [] => None
  | re :: rest =>
      match findIndex (RegExp.test re) h with
      | Some idx => Some idx
      | None => pickColumnIndex_go h rest
      end
  end.

Definition pickColumnIndex (headerRow : list JsVal)
    (candidates : list RegExp.RegExp) : option nat :=
  pickColumnIndex_go (norm <$> headerRow) candidates.

(** ** Result records *)

Inductive Department : Type := frontend | backend | mobile | htmlCss | aiMl.

Global Instance Department_eq_dec : EqDecision Department.
Proof. solve_decision. Defined.

Definition DEPARTMENTS : list Department :=
  [frontend; backend; mobile; htmlCss; aiMl].

Module HoursRange.
Record t : Type := mk { min : Z; mostLikely : Z; max : Z }.
Inductive key : Type := k_min | k_mostLikely | k_max.
End HoursRange.

(** [ranges] is indexed with the five tags of [DEPARTMENTS]; a tag the
    caller's object does not carry reads as [undefined], here [None]. *)
Record EditableRow : Type := {
  featureIndex : Z;
  batch : string;
  featureName : string;
  featureDescription : string;
  confidence : string;
  complexity : string;
  techRemarks : string;
  userRemark : string;
  ranges : Department → option HoursRange.t;
}.

(** ** Workbooks and the spreadsheet library *)

(** A cell of a sheet: blank, text or number. *)
Inductive Cell : Type :=
| Blank
| Text (s : string)
| Num (n : Z).

Global Instance Cell_eq_dec : EqDecision Cell.
Proof. solve_decision. Defined.

(** A sheet is a grid of rows, which need not have the same length. *)
Abbreviation WorkSheet := (list (list Cell)).

Record WorkBook : Type := {
  SheetNames : list string;
  Sheets : gmap string WorkSheet;
}.

Module XLSX.

(** The calls the engine makes into the spreadsheet library (SheetJS), with
    the options it passes.

    [sheet_to_json ws {header: 1, defval: "", blankrows: false}] walks the
    rows of the sheet's range.  With [header: 1] each row becomes an array
    over the columns of the range; with [defval] every column in which the
    sheet has no cell value receives [defval], so all arrays have the width
    of the range; with [blankrows: false] a row in which no cell holds a
    value is left out.  The range of a grid starts at its first cell and is
    as wide as its longest row. *)

Definition isempty (row : list Cell) : bool :=
  forallb (λ c, bool_decide (c = Blank)) row.

Definition range_width (ws : WorkSheet) : nat := max_list (length <$> ws).

Definition cell_json (defval : JsVal) (c : Cell) : JsVal :=
  match c with
  | Blank => defval
  | Text s => JStr s
  | Num n => JNum n
  end.

Definition make_json_row (defval : JsVal) (width : nat) (row : list Cell)
  : list JsVal :=
  (cell_json defval <$> row) ++ replicate (width - length row) defval.

Definition sheet_to_json (ws : WorkSheet) : list (list JsVal) :=
  make_json_row (JStr "") (range_width ws)
    <$> filter (λ row, isempty row = false) ws.

(** [aoa_to_sheet] writes the array back from the first cell on; an
    [undefined] entry leaves its cell out. *)
Definition json_cell (v : JsVal) : Cell :=
  match v with
  | JUndef => Blank
  | JStr s => Text s
  | JNum n => Num n
  end.

Definition aoa_to_sheet (aoa : list (list JsVal)) : WorkSheet :=
  (λ row : list JsVal, json_cell <$> row) <$> aoa.

End XLSX.

(** ** Errors and the workbook monad *)

Inductive ExportError : Type :=
| MissingFile
| NoEstimatesProvided
| NoSheetsFound
| SheetNotFound
| EmptySheet
| MissingKeyColumn.

Definition message (e : ExportError) : string :=
  match e with
  | MissingFile => "Missing original Excel file"
  | NoEstimatesProvided => "No estimates to export"
  | NoSheetsFound => "No sheets found in uploaded workbook"
  | SheetNotFound => "Sheet not found"
  | EmptySheet => "Uploaded sheet is empty"
  | MissingKeyColumn =>
      "Could not find a 'Feature' or 'Feature Index' column in the uploaded sheet"
  end.

(** A computation over the in-memory workbook [wb] that may throw. *)
Definition M (A : Type) : Type := WorkBook → WorkBook * (ExportError + A).

Global Instance M_ret : MRet M := λ A a wb, (wb, inr a).
Global Instance M_bind : MBind M := λ A B f m wb,
  match m wb with
  | (wb', inl e) => (wb', inl e)
  | (wb', inr a) => f a wb'
  end.

Definition throw {A : Type} (e : ExportError) : M A := λ wb, (wb, inl e).

Definition getAoa (sheetName : string) : M (list (list JsVal)) := λ wb,
  match Sheets wb !! sheetName with
  | None => (wb, inl SheetNotFound)
  | Some ws => (wb, inr (XLSX.sheet_to_json ws))
  end.

Definition writeAoa (sheetName : string) (aoa : list (list JsVal)) : M unit :=
  λ wb,
    ({| SheetNames := SheetNames wb;
        Sheets := <[sheetName := XLSX.aoa_to_sheet aoa]> (Sheets wb) |},
     inr tt).

(** [wb.SheetNames[1] ?? wb.SheetNames[0]] *)
Definition preferredSheetName (wb : WorkBook) : option string :=
  match SheetNames wb !! 1 with
  | Some n => Some n
  | None => SheetNames wb !! 0
  end.

(** The selection with its guard [if (!sheetName) throw]: the empty string
    is falsy as well. *)
Definition selectSheet : M string := λ wb,
  match preferredSheetName wb with
  | None | Some "" => (wb, inl NoSheetsFound)
  | Some n => (wb, inr n)
  end.

(** ** Lookups built from the result records *)

Definition lookups_step
    (acc : gmap string EditableRow * gmap Z EditableRow) (r : EditableRow)
  : gmap string EditableRow * gmap Z EditableRow :=
  let byIndex := <[featureIndex r := r]> acc.2 in
  let key := norm (JStr (featureName r)) in
  let byName :=
    if bool_decide (key ≠ "") then
      match acc.1 !! key with
      | None => <[key := r]> acc.1
      | Some _ => acc.1
      end
    else acc.1 in
  (byName, byIndex).

Definition build_lookups (rows : list EditableRow)
  : gmap string EditableRow * gmap Z EditableRow :=
  foldl lookups_step (∅, ∅) rows.

Definition byFeatureName (rows : list EditableRow) : gmap string EditableRow :=
  (build_lookups rows).1.
Definition byFeatureIndex (rows : list EditableRow) : gmap Z EditableRow :=
  (build_lookups rows).2.

(** [[...rows].sort((a, b) => Number(a.featureIndex) - Number(b.featureIndex))]:
    the sort is stable, equal keys keep their order. *)
Fixpoint sort_insert (x : EditableRow) (l : list EditableRow) : list EditableRow :=
  match l with
  | [] => [x]
  | y :: l' =>
      if (featureIndex x <=? featureIndex y)%Z then x :: y :: l'
      else y :: sort_insert x l'
  end.

Definition sortByFeatureIndex (rows : list EditableRow) : list EditableRow :=
  foldr sort_insert [] rows.

(** ** Appended columns *)

Definition deptLabel (dept : Department) : string :=
  match dept with
  | frontend => "Frontend"
  | backend => "Backend"
  | mobile => "Mobile"
  | htmlCss => "HTML/CSS"
  | aiMl => "AI/ML"
  end.

Definition keyLabel (k : HoursRange.key) : string :=
  match k with
  | HoursRange.k_min => "Min"
  | HoursRange.k_mostLikely => "MostLikely"
  | HoursRange.k_max => "Max"
  end.

Definition headerLabel (dept : Department) (k : HoursRange.key) : string :=
  "AI " +:+ deptLabel dept +:+ " " +:+ keyLabel k.

Definition appendedHeaders : list string :=
  (DEPARTMENTS ≫= λ d,
     [ headerLabel d HoursRange.k_min;
       headerLabel d HoursRange.k_mostLikely;
       headerLabel d HoursRange.k_max ])
  ++ ["AI Confidence"; "AI Complexity"; "AI Tech Remarks"; "AI User Remark"].

(** [range?.min ?? ""], [range?.mostLikely ?? ""], [range?.max ?? ""] *)
Definition rangeCells (range : option HoursRange.t) : list JsVal :=
  match range with
  | Some hr =>
      [ JNum (HoursRange.min hr);
        JNum (HoursRange.mostLikely hr);
        JNum (HoursRange.max hr) ]
  | None => [JStr ""; JStr ""; JStr ""]
  end.

(** The values written for a hit, in the order of the writes [row[c++] = _]. *)
Definition hitCells (hit : EditableRow) : list JsVal :=
  (DEPARTMENTS ≫= λ d, rangeCells (ranges hit d))
  ++ [ JStr (confidence hit); JStr (complexity hit);
       JStr (techRemarks hit); JStr (userRemark hit) ].

(** [row[c++] = v] for each value in turn. *)
Fixpoint write_cells (c : nat) (vals : list JsVal) (row : list JsVal)
  : list JsVal :=
  match vals with
  | [] => row
  | v :: vals' => write_cells (S c) vals' (<[c := v]> row)
  end.

(** [while (row.length < n) row.push("")] *)
Definition pad_to (n : nat) (row : list JsVal) : list JsVal :=
  row ++ replicate (n - length row) (JStr "").

(** ** Filling the data rows *)

Section FillRows.

Variable rows : list EditableRow.
Variable byName : gmap string EditableRow.
Variable byIndex : gmap Z EditableRow.
Variables featureCol featureIndexCol : option nat.
Variables baseLen headerRowIndex : nat.

Definition indexHit (row : list JsVal) : option EditableRow :=
  match featureIndexCol with
  | Some c =>
      match ToNumber (at_index row c) with
      | Some v => byIndex !! v
      | None => None
      end
  | None => None
  end.

Definition nameHit (row : list JsVal) : option EditableRow :=
  match featureCol with
  | Some c => byName !! norm (at_index row c)
  | None => None
  end.

Definition fallbackHit (r : nat) : option EditableRow :=
  let sorted := sortByFeatureIndex rows in
  let dataRowOrdinal := r - (headerRowIndex + 1) in
  sorted !! dataRowOrdinal.

Definition findHit (r : nat) (row : list JsVal) : option EditableRow :=
  match indexHit row with
  | Some hit => Some hit
  | None =>
      match nameHit row with
      | Some hit => Some hit
      | None => fallbackHit r
      end
  end.

(** The body of the loop over the data rows. *)
Definition fillRow (r : nat) (row : list JsVal) : list JsVal :=
  if isRowEmpty row then row
  else
    let row' := pad_to (baseLen + length appendedHeaders) row in
    match findHit r row with
    | Some hit => write_cells baseLen (hitCells hit) row'
    | None => row'
    end.

(** [for (let r = start; r < aoa.length; r++) { ...; aoa[r] = row }],
    with [n] the number of iterations left. *)
Fixpoint fillRows (n r : nat) (aoa : list (list JsVal)) : list (list JsVal) :=
  match n with
  | O => aoa
  | S n' => fillRows n' (S r) (<[r := fillRow r (default [] (aoa !! r))]> aoa)
  end.

End FillRows.

(** ** The export *)

Record File : Type := {
  name : string;
  (** the workbook [XLSX.read] makes of the file's bytes *)
  arrayBuffer : WorkBook;
}.

(** [originalFile.name.replace(/\.(xlsx|xls)$/i, "")], on the reversed name. *)
Definition stripExtension (fileName : string) : string :=
  match String.rev fileName with
  | String c1 (String c2 (String c3 (String c4 rest4))) =>
      let last4 := String c4 (String c3 (String c2 (String c1 ""))) in
      match rest4 with
      | String c5 rest5 =>
          if bool_decide (toLowerCase (String c5 last4) = ".xlsx")
          then String.rev rest5
          else if bool_decide (toLowerCase last4 = ".xls") then String.rev rest4
          else fileName
      | "" => if bool_decide (toLowerCase last4 = ".xls") then "" else fileName
      end
  | _ => fileName
  end.

Definition outName (originalFile : File) (outputFileName : option string) : string :=
  let baseName := stripExtension (name originalFile) in
  match outputFileName with
  | Some n => n
  | None => baseName +:+ "_with_estimates.xlsx"
  end.

(** The array of rows after the header has been extended and every data row
    filled. The callers below pass a non-empty [aoa], for which
    [headerRowIndex] is one of its indices. *)
Definition annotate (rows : list EditableRow) (featureCol featureIndexCol : option nat)
    (aoa : list (list JsVal)) : list (list JsVal) :=
  let headerRowIndex := findHeaderRowIndex aoa in
  let headerRow := default [] (aoa !! headerRowIndex) in
  let byName := byFeatureName rows in
  let byIndex := byFeatureIndex rows in
  let baseLen := length headerRow in
  let aoa := <[headerRowIndex := headerRow ++ (JStr <$> appendedHeaders)]> aoa in
  fillRows rows byName byIndex featureCol featureIndexCol baseLen headerRowIndex
    (length aoa - (headerRowIndex + 1)) (headerRowIndex + 1) aoa.

Definition pipeline (originalFile : File) (rows : list EditableRow)
    (outputFileName : option string) : M string :=
  sheetName ← selectSheet;
  aoa ← getAoa sheetName;
  if bool_decide (length aoa = 0) then throw EmptySheet
  else
    let headerRowIndex := findHeaderRowIndex aoa in
    let headerRow := default [] (aoa !! headerRowIndex) in
    let featureCol := pickColumnIndex headerRow RegExp.featureCandidates in
    let featureIndexCol := pickColumnIndex headerRow RegExp.featureIndexCandidates in
    match featureCol, featureIndexCol with
    | None, None => throw MissingKeyColumn
    | _, _ =>
        _ ← writeAoa sheetName (annotate rows featureCol featureIndexCol aoa);
        mret (outName originalFile outputFileName)
    end.

(** What a call leaves behind: an error and the in-memory workbook at that
    moment (if one was parsed), or the workbook handed to the download with
    its file name. *)
Inductive Outcome : Type :=
| Threw (e : ExportError) (wb : option WorkBook)
| Downloaded (wb : WorkBook) (filename : string).

Definition exportUploadedExcelWithEstimates (originalFile : option File)
    (rows : list EditableRow) (outputFileName : option string) : Outcome :=
  match originalFile with
  | None => Threw MissingFile None
  | Some file =>
      match rows with
      | [] => Threw NoEstimatesProvided None
      | _ =>
          match pipeline file rows outputFileName (arrayBuffer file) with
          | (wb, inl e) => Threw e (Some wb)
          | (wb, inr filename) => Downloaded wb filename
          end
      end
  end.

(** ** Notions used in the statements *)

Definition has_index (n : Z) (r : EditableRow) : Prop := featureIndex r = n.
Definition has_name (k : string) (r : EditableRow) : Prop :=
  norm (JStr (featureName r)) = k.

Global Instance has_index_dec n r : Decision (has_index n r).
Proof. unfold has_index. apply _. Defined.
Global Instance has_name_dec k r : Decision (has_name k r).
Proof. unfold has_name. apply _. Defined.

Definition index_le (a b : EditableRow) : Prop :=
  (featureIndex a ≤ featureIndex b)%Z.

(** The header row of a parsed array and the key columns found in it. *)
Definition headerRowOf (aoa : list (list JsVal)) : list JsVal :=
  default [] (aoa !! findHeaderRowIndex aoa).
Definition featureColOf (aoa : list (list JsVal)) : option nat :=
  pickColumnIndex (headerRowOf aoa) RegExp.featureCandidates.
Definition featureIndexColOf (aoa : list (list JsVal)) : option nat :=
  pickColumnIndex (headerRowOf aoa) RegExp.featureIndexCandidates.

(** The sheet written back for a selected sheet [ws]. *)
Definition annotatedSheet (rows : list EditableRow) (ws : WorkSheet) : WorkSheet :=
  let aoa := XLSX.sheet_to_json ws in
  XLSX.aoa_to_sheet (annotate rows (featureColOf aoa) (featureIndexColOf aoa) aoa).

Definition has_value (row : list Cell) : Prop := XLSX.isempty row = false.

Global Instance has_value_dec row : Decision (has_value row).
Proof. unfold has_value. apply _. Defined.

(** The number of rows above row [r] that the parser keeps: the index at
    which row [r] of the sheet is found in the parsed array. *)
Definition rows_kept_above (ws : WorkSheet) (r : nat) : nat :=
  length (filter has_value (take r ws)).

Definition succeeded (o : Outcome) : bool :=
  match o with
  | Downloaded _ _ => true
  | Threw _ _ => false
  end.

Definition outputSheet (o : Outcome) (sheetName : string) : option WorkSheet :=
  match o with
  | Downloaded wb _ => Sheets wb !! sheetName
  | Threw _ _ => None
  end.

Definition filenameOf (o : Outcome) : option string :=
  match o with
  | Downloaded _ filename => Some filename
  | Threw _ _ => None
  end.


(** A row of the sheet is blank when each of its cells reads as the empty
    string after [norm]; a cell without value reads as [""]. *)
Definition row_blank (row : list Cell) : bool :=
  isRowEmpty (XLSX.cell_json (JStr "") <$> row).

(** The ordinal of row [r] among the non-blank rows after the header. *)
Definition nonblank_ordinal (aoa : list (list JsVal)) (headerRowIndex r : nat) : nat :=
  length (filter (λ row, isRowEmpty row = false)
            (take (r - (headerRowIndex + 1)) (drop (headerRowIndex + 1) aoa))).


(** ** Sample data *)

Module Examples.

Definition frontendOnly (lo ml hi : Z) (d : Department) : option HoursRange.t :=
  match d with
  | frontend => Some (HoursRange.mk lo ml hi)
  | _ => None
  end.

Definition record (i : Z) (n conf : string)
    (rg : Department → option HoursRange.t) : EditableRow :=
  {| featureIndex := i; batch := "B1"; featureName := n;
     featureDescription := ""; confidence := conf; complexity := "Simple";
     techRemarks := "none"; userRemark := ""; ranges := rg |}.

Definition login : EditableRow := record 1 "Login" "High" (frontendOnly 2 4 6).
Definition logout : EditableRow := record 2 "Logout" "Low" (frontendOnly 1 2 3).

(** Two records sharing the index [1] and, up to [norm], the name. *)
Definition loginDraft : EditableRow := record 1 "Login" "Low" (frontendOnly 1 1 1).
Definition loginFinal : EditableRow := record 1 " LOGIN " "High" (frontendOnly 2 4 6).

(** Records with the indices [0] and [1]. *)
Definition search : EditableRow := record 0 "Search" "Medium" (frontendOnly 3 5 8).
Definition profile : EditableRow := record 1 "Profile" "Low" (frontendOnly 1 2 3).

Definition book (sheets : list (string * WorkSheet)) : WorkBook :=
  {| SheetNames := sheets.*1; Sheets := list_to_map sheets |}.

Definition upload (n : string) (sheets : list (string * WorkSheet)) : File :=
  {| name := n; arrayBuffer := book sheets |}.

(** The scenario sheet. *)
Definition features : WorkSheet :=
  [ [Text "Sr No"; Text "Feature"; Text "Notes"];
    [Num 1; Text "Login"; Text "-"];
    [Num 2; Text "Logout"; Text "-"] ].



(** The same sheet below two empty rows, and below two rows of spaces. *)
Definition featuresBelowTwoBlanks : WorkSheet :=
  [Blank; Blank; Blank] :: [Blank; Blank; Blank] :: features.
Definition featuresBelowSpaces : WorkSheet :=
  [Text " "; Blank; Blank] :: [Text "  "; Text " "; Blank] :: features.

(** A feature list with a row of spaces between the header and the data,
    and the same list without that row. *)
Definition spaced : WorkSheet :=
  [ [Text "Feature"]; [Text " "]; [Text "Payments"] ].
Definition unspaced : WorkSheet :=
  [ [Text "Feature"]; [Text "Payments"] ].

(** A sheet without a key column. *)
Definition notes : WorkSheet := [ [Text "Notes"]; [Text "to do"] ].

(** A data row longer than the header row. *)
Definition featuresRagged : WorkSheet :=
  [ [Text "Sr No"; Text "Feature"];
    [Num 1; Text "Login"; Text "-"; Text "v2"];
    [Num 2; Text "Logout"] ].

End Examples.

(** * The results page and its collaborators *)

(** The page that loads the estimates, lets the user edit them and calls the
    export; the fields of a record are taken at their declared types. *)

Module Page.

(** The department tags of the application. *)
Inductive Department : Type :=
| React | Next | Vue | Flutter | ReactNative | HtmlCss | AiMl
| Nest | Node | DotNet | Blockchain.

Global Instance Department_eq_dec : EqDecision Department.
Proof. solve_decision. Defined.

Definition DEPARTMENTS : list Department :=
  [React; Next; Vue; Flutter; ReactNative; HtmlCss; AiMl;
   Nest; Node; DotNet; Blockchain].

(** The tag as a string, the property name under which [ranges] holds the
    department's hours. *)
Definition tag (d : Department) : string :=
  match d with
  | React => "React"
  | Next => "Next"
  | Vue => "Vue"
  | Flutter => "Flutter"
  | ReactNative => "React.Native"
  | HtmlCss => "html/css"
  | AiMl => "AI-ML"
  | Nest => "Nest"
  | Node => "Node"
  | DotNet => "DotNet"
  | Blockchain => "Blockchain"
  end.

Record EditableRow : Type := {
  featureIndex : Z;
  batch : string;
  featureName : string;
  featureDescription : string;
  confidence : string;
  complexity : string;
  techRemarks : string;
  userRemark : string;
  ranges : Department → HoursRange.t;
}.

(** A value of type [any] handed to [toRange]: an object with the three
    points (each of any type, [undefined] when missing) or something else. *)
Inductive Any : Type :=
| Obj (min mostLikely max : JsVal)
| Prim (v : JsVal).

(** [Number(v ?? 0)], with [0] for a result that is not finite. *)
Definition finiteOrZero (v : JsVal) : Z :=
  let n := ToNumber (match v with JUndef => JNum 0 | _ => v end) in
  default 0%Z n.

Definition toRange (maybeRange : Any) (maybeFlat : JsVal) : HoursRange.t :=
  match maybeRange with
  | Obj min mostLikely max =>
      HoursRange.mk (finiteOrZero min) (finiteOrZero mostLikely) (finiteOrZero max)
  | Prim _ =>
      let n := finiteOrZero maybeFlat in
      HoursRange.mk n n n
  end.

(** [/[^a-zA-Z0-9._-]/] does not match the character. *)
Definition is_safe (a : ascii) : bool :=
  let n := Ascii.N_of_ascii a in
  ((97 <=? n) && (n <=? 122))%N || ((65 <=? n) && (n <=? 90))%N
  || ((48 <=? n) && (n <=? 57))%N
  || bool_decide (a = "."%char) || bool_decide (a = "_"%char)
  || bool_decide (a = "-"%char).

Fixpoint replace_unsafe (s : string) : string :=
  match s with
  | "" => ""
  | String a s' => String (if is_safe a then a else "_"%char) (replace_unsafe s')
  end.

(** [s.slice(0, n)] *)
Fixpoint slice0 (n : nat) (s : string) : string :=
  match n, s with
  | S n', String a s' => String a (slice0 n' s')
  | _, _ => ""
  end.

Definition safeFilePart (s : string) : string := slice0 80 (replace_unsafe s).

(** An item of the status response; the hours of a department are read
    from the properties [<dept>HoursRange] and [<dept>Hours]. *)
Record EstimationResultItem : Type := {
  it_featureIndex : option Z;
  it_batch : option string;
  it_featureName : option string;
  it_complexity : option string;
  it_techRemarks : option string;
  it_confidence : option string;
  it_batchConfidenceDelta : option string;
  it_userRemark : option string;
  it_hoursRange : Department → Any;
  it_hours : Department → JsVal;
}.

(** [a || b] on optional strings: the empty string is falsy. *)
Definition orElse (a : option string) (b : string) : string :=
  match a with
  | Some (String c s) => String c s
  | _ => b
  end.

(** The mapping [items.map((it, idx) => ...)] of [load]. *)
Definition mapItem (featureDescriptions : gmap string string)
    (idx : nat) (it : EstimationResultItem) : EditableRow :=
  let featureIndex := default (Z.of_nat idx) (it_featureIndex it) in
  {| featureIndex := featureIndex;
     batch := orElse (it_batch it) "";
     featureName := orElse (it_featureName it) "";
     featureDescription := orElse (featureDescriptions !! pretty featureIndex) "";
     confidence :=
       orElse (it_confidence it) (orElse (it_batchConfidenceDelta it) "Medium");
     complexity := orElse (it_complexity it) "";
     techRemarks := orElse (it_techRemarks it) "";
     userRemark := orElse (it_userRemark it) "";
     ranges := λ d, toRange (it_hoursRange it d) (it_hours it d) |}.

Definition mapItems (featureDescriptions : gmap string string)
    (items : list EstimationResultItem) : list EditableRow :=
  imap (mapItem featureDescriptions) items.

(** [[totals]]: the sums of the most likely hours per department, added up
    row by row and department by department, and their total. *)
Definition addRow (sums : Department → Z) (row : EditableRow) : Department → Z :=
  foldl (λ sums d, <[d := (sums d + HoursRange.mostLikely (ranges row d))%Z]> sums)
    sums DEPARTMENTS.

Definition sums (rows : list EditableRow) : Department → Z :=
  foldl addRow (λ _, 0%Z) rows.






(** The updater [regenerate] applies to [original] and to [draft]. *)
Definition replaceRegenerated (prev : option (list EditableRow))
    (featureIndex' : Z) (updatedRow : EditableRow) : option (list EditableRow) :=
  match prev with
  | None => None
  | Some next =>
      match findIndex (λ r, bool_decide (featureIndex r = featureIndex')) next with
      | Some i => Some (<[i := updatedRow]> next)
      | None => Some next
      end
  end.

End Page.

(** ** Handing the page's rows to the engine *)

(** The property names the engine reads [ranges] with. *)
Definition engineTag (d : Department) : string :=
  match d with
  | frontend => "frontend"
  | backend => "backend"
  | mobile => "mobile"
  | htmlCss => "htmlCss"
  | aiMl => "aiMl"
  end.

(** [row.ranges[name]] on a row of the page: its [ranges] object has the
    properties [Page.tag d]. *)
Definition rangesProperty (row : Page.EditableRow) (name : string)
  : option HoursRange.t :=
  match list_find (λ d, Page.tag d = name) Page.DEPARTMENTS with
  | Some (_, d) => Some (Page.ranges row d)
  | None => None
  end.

(** The row object of the page as the engine reads it. *)
Definition asEngineRow (row : Page.EditableRow) : EditableRow :=
  {| featureIndex := Page.featureIndex row;
     batch := Page.batch row;
     featureName := Page.featureName row;
     featureDescription := Page.featureDescription row;
     confidence := Page.confidence row;
     complexity := Page.complexity row;
     techRemarks := Page.techRemarks row;
     userRemark := Page.userRemark row;
     ranges := λ d, rangesProperty row (engineTag d) |}.

Record PageState : Type := {
  draft : option (list Page.EditableRow);
  uploadedExcelFile : option File;
  activeSessionId : string;
  uploadedExcelSessionId : string;
}.

(** What [exportAnnotatedOriginalExcel] leaves: the error shown, or the
    download with the error cleared. *)
Inductive PageOutcome : Type :=
| ShowError (msg : string)
| Exported (wb : WorkBook) (filename : string).

Definition exportAnnotatedOriginalExcel (st : PageState) : PageOutcome :=
  match draft st with
  | None | Some [] => ShowError "No results to export. Load results first."
  | Some rows =>
      match uploadedExcelFile st with
      | None =>
          ShowError "Original Excel file not found. Re-upload the Excel (Upload page) without refreshing, then try again."
      | Some file =>
          let currentSession := trim (activeSessionId st) in
          let fileSession := trim (uploadedExcelSessionId st) in
          if bool_decide (currentSession = "") || bool_decide (fileSession = "")
             || negb (bool_decide (currentSession = fileSession))
          then ShowError "The uploaded Excel file does not match the current sessionId. Re-upload the Excel for this session, then export again."
          else
            match exportUploadedExcelWithEstimates (Some file)
                    (asEngineRow <$> rows) None with
            | Threw e _ =>
                ShowError (match message e with
                           | "" => "Failed to export annotated Excel"
                           | m => m
                           end)
            | Downloaded wb filename => Exported wb filename
            end
      end
  end.

(** ** Joining the base URL and a path *)

Module Api.

Fixpoint startsWith (prefix s : string) : bool :=
  match prefix, s with
  | "", _ => true
  | String a p', String b s' => bool_decide (a = b) && startsWith p' s'
  | String _ _, "" => false
  end.

(** [/^https?:\/\//i.test(path)] *)
Definition isAbsolute (path : string) : bool :=
  startsWith "http://" (toLowerCase path) || startsWith "https://" (toLowerCase path).

(** [baseUrl.replace(/\/$/, '')] *)
Definition stripTrailingSlash (s : string) : string :=
  match String.rev s with
  | String "/" r => String.rev r
  | _ => s
  end.

Definition joinUrl (baseUrl path : string) : string :=
  if isAbsolute path then path
  else
    let base := stripTrailingSlash baseUrl in
    let p := if startsWith "/" path then path else "/" +:+ path in
    base +:+ p.

End Api.

(** ** Choosing departments and polling *)

Module Estimate.

(** [[...detected, ...ALL_DEPARTMENTS.filter((d) => !detected.includes(d))]] *)
Definition departmentChoices (detected : list Page.Department)
  : list Page.Department :=
  detected ++ filter (λ d, d ∉ detected) Page.DEPARTMENTS.

End Estimate.

Module Status.




End Status.

(** ** Notions used in the further properties *)

(** [trimEnd] by recursion on the string, without reversing it. *)
Fixpoint trimEnd_struct (s : string) : string :=
  match s with
  | "" => ""
  | String a s' =>
      match trimEnd_struct s' with
      | "" => if Ascii.is_space a then "" else String a ""
      | t => String a t
      end
  end.




Definition chars (s : string) : list ascii := String.list_ascii_of_string s.

(** ** Sample data of the page *)

Module PageExamples.

Definition flat (h : Z) (d : Page.Department) : HoursRange.t :=
  HoursRange.mk h h h.

Definition row (i : Z) (n : string) (h : Z) : Page.EditableRow :=
  {| Page.featureIndex := i; Page.batch := "B1"; Page.featureName := n;
     Page.featureDescription := ""; Page.confidence := "High";
     Page.complexity := "Simple"; Page.techRemarks := "none";
     Page.userRemark := ""; Page.ranges := flat h |}.

(** Two rows share the index [1]. *)
Definition draft3 : list Page.EditableRow :=
  [row 0 "Search" 2; row 1 "Login" 3; row 1 "Login again" 5].

(** An item without index, confidence and hours. *)
Definition bare : Page.EstimationResultItem :=
  {| Page.it_featureIndex := None; Page.it_batch := None;
     Page.it_featureName := Some "Login"; Page.it_complexity := None;
     Page.it_techRemarks := None; Page.it_confidence := Some "";
     Page.it_batchConfidenceDelta := None; Page.it_userRemark := None;
     Page.it_hoursRange := λ _, Page.Prim JUndef;
     Page.it_hours := λ _, JStr "7" |}.

Definition ready : PageState :=
  {| draft := Some [row 1 "Login" 3; row 2 "Logout" 5];
     uploadedExcelFile :=
       Some (Examples.upload "plan.xls" [("Features", Examples.features)]);
     activeSessionId := " s-1 ";
     uploadedExcelSessionId := "s-1" |}.

End PageExamples.

(** * Properties *)

(** ** Array updates *)

Lemma write_cells_length c vals row :
  length (write_cells c vals row) = length row.
Proof.
  revert c row. induction vals as [|v vals IH]; intros c row; simpl; [done|].
  by rewrite IH, length_insert.
Qed.

Lemma write_cells_lookup_lt c vals row j :
  j < c → write_cells c vals row !! j = row !! j.
Proof.
  revert c row. induction vals as [|v vals IH]; intros c row Hj; simpl; [done|].
  rewrite IH by lia. apply list_lookup_insert_ne. lia.
Qed.

Lemma write_cells_lookup_ge c vals row j :
  c + length vals ≤ j → write_cells c vals row !! j = row !! j.
Proof.
  revert c row. induction vals as [|v vals IH]; intros c row Hj; simpl in *; [done|].
  rewrite IH by lia. apply list_lookup_insert_ne. lia.
Qed.

Lemma write_cells_lookup_written c vals row i v :
  c + length vals ≤ length row →
  vals !! i = Some v →
  write_cells c vals row !! (c + i) = Some v.
Proof.
  revert c row i. induction vals as [|w vals IH]; intros c row i Hlen Hi; [done|].
  simpl in *. destruct i as [|i]; simpl in *.
  - simplify_eq. rewrite write_cells_lookup_lt by lia.
    rewrite Nat.add_0_r. apply list_lookup_insert_eq. lia.
  - replace (c + S i) with (S c + i) by lia.
    apply IH; [rewrite length_insert; lia | done].
Qed.

Lemma pad_to_length n row : length (pad_to n row) = length row `max` n.
Proof. unfold pad_to. rewrite length_app, length_replicate. lia. Qed.


Section FillRowsFacts.

Context (rows : list EditableRow).
Context (byName : gmap string EditableRow) (byIndex : gmap Z EditableRow).
Context (featureCol featureIndexCol : option nat).
Context (baseLen headerRowIndex : nat).

Local Abbreviation fill :=
  (fillRow rows byName byIndex featureCol featureIndexCol baseLen headerRowIndex).
Local Abbreviation fills :=
  (fillRows rows byName byIndex featureCol featureIndexCol baseLen headerRowIndex).


Lemma fillRows_length n r aoa : length (fills n r aoa) = length aoa.
Proof.
  revert r aoa. induction n as [|n IH]; intros r aoa; simpl; [done|].
  by rewrite IH, length_insert.
Qed.

(** The loop rewrites the rows [r .. r+n-1], each from its own content. *)
Lemma fillRows_lookup n r aoa i :
  fills n r aoa !! i =
    if decide (r ≤ i < r + n) then fill i <$> aoa !! i else aoa !! i.
Proof.
  revert r aoa. induction n as [|n IH]; intros r aoa; simpl.
  { case_decide; [lia|done]. }
  rewrite IH. destruct (decide (i = r)) as [->|Hne].
  - rewrite decide_False by lia. rewrite decide_True by lia.
    destruct (aoa !! r) as [row|] eqn:Hr; simpl.
    + apply list_lookup_insert_eq. by eapply lookup_lt_Some.
    + rewrite list_insert_ge; [done|]. by apply lookup_ge_None.
  - rewrite list_lookup_insert_ne by done.
    repeat case_decide; try done; lia.
Qed.

End FillRowsFacts.

(** ** Locating the header row *)

Lemma norm_empty_string : norm (JStr "") = "".
Proof. reflexivity. Qed.

Lemma isRowEmpty_false_length row : isRowEmpty row = false → 0 < length row.
Proof. destruct row; simpl; [done|lia]. Qed.

Lemma header_test_nonblank row :
  (0 <? length row) && negb (isRowEmpty row) = negb (isRowEmpty row).
Proof.
  destruct (isRowEmpty row) eqn:E; simpl; [by rewrite andb_false_r|].
  apply isRowEmpty_false_length in E. rewrite andb_true_r.
  by apply Nat.ltb_lt.
Qed.

Lemma findHeaderRowIndex_from_Some i aoa k :
  findHeaderRowIndex_from i aoa = Some k →
  ∃ j row, k = i + j ∧ aoa !! j = Some row ∧ isRowEmpty row = false ∧
    ∀ j' row', j' < j → aoa !! j' = Some row' → isRowEmpty row' = true.
Proof.
  revert i. induction aoa as [|row aoa IH]; intros i; simpl; [done|].
  rewrite header_test_nonblank. destruct (isRowEmpty row) eqn:E; simpl.
  - intros (j & row' & -> & Hj & Hne & Hbefore)%IH.
    exists (S j), row'. split_and!; [lia|done|done|].
    intros [|j'] r' Hlt Hr'; simpl in *; [by simplify_eq|].
    eapply Hbefore; [|done]. lia.
  - intros [= <-]. exists 0, row. split_and!; [lia|done|done|]. lia.
Qed.

Lemma findHeaderRowIndex_from_None i aoa :
  findHeaderRowIndex_from i aoa = None →
  ∀ j row, aoa !! j = Some row → isRowEmpty row = true.
Proof.
  revert i. induction aoa as [|row aoa IH]; intros i; simpl; [done|].
  rewrite header_test_nonblank. destruct (isRowEmpty row) eqn:E; simpl; [|done].
  intros Hnone [|j] r' Hr'; simpl in *; [by simplify_eq|]. by eapply IH.
Qed.

Lemma findHeaderRowIndex_lt aoa : aoa ≠ [] → findHeaderRowIndex aoa < length aoa.
Proof.
  intros Hne. unfold findHeaderRowIndex.
  destruct (findHeaderRowIndex_from 0 aoa) as [k|] eqn:E; simpl.
  - apply findHeaderRowIndex_from_Some in E as (j & row & -> & Hj & _).
    apply lookup_lt_Some in Hj. lia.
  - destruct aoa; [done|simpl; lia].
Qed.

(** ** The annotated array, row by row *)

Section AnnotateFacts.

Context (rows : list EditableRow) (featureCol featureIndexCol : option nat).
Context (aoa : list (list JsVal)).

Let h := findHeaderRowIndex aoa.
Let headerRow := default [] (aoa !! h).

Lemma annotate_length :
  length (annotate rows featureCol featureIndexCol aoa) = length aoa.
Proof. unfold annotate. by rewrite fillRows_length, length_insert. Qed.

Lemma annotate_lookup_before i :
  i < h → annotate rows featureCol featureIndexCol aoa !! i = aoa !! i.
Proof.
  intros Hi. unfold annotate. rewrite fillRows_lookup.
  rewrite decide_False by (subst h; lia).
  apply list_lookup_insert_ne. subst h; lia.
Qed.

Lemma annotate_lookup_header :
  aoa ≠ [] →
  annotate rows featureCol featureIndexCol aoa !! h
  = Some (headerRow ++ (JStr <$> appendedHeaders)).
Proof.
  intros Hne. unfold annotate. rewrite fillRows_lookup.
  rewrite decide_False by (subst h; lia).
  apply list_lookup_insert_eq. by apply findHeaderRowIndex_lt.
Qed.

Lemma annotate_lookup_data r :
  h < r →
  annotate rows featureCol featureIndexCol aoa !! r
  = fillRow rows (byFeatureName rows) (byFeatureIndex rows)
      featureCol featureIndexCol (length headerRow) h r <$> aoa !! r.
Proof.
  intros Hr. unfold annotate. rewrite fillRows_lookup.
  rewrite list_lookup_insert_ne by (subst h; lia).
  case_decide as Hd; [done|].
  rewrite length_insert in Hd.
  rewrite (lookup_ge_None_2 aoa r); [done|]. subst h. lia.
Qed.

End AnnotateFacts.

(** ** The two lookups *)

Lemma foldl_lookups_index acc rows n :
  (foldl lookups_step acc rows).2 !! n =
    match last (filter (has_index n) rows) with
    | Some r => Some r
    | None => acc.2 !! n
    end.
Proof.
  revert acc. induction rows as [|r rows IH]; intros acc; simpl; [done|].
  rewrite IH, filter_cons. simpl. case_decide as Hn.
  - rewrite last_cons. destruct (last (filter _ rows)); [done|].
    unfold has_index in Hn. subst n. apply lookup_insert_eq.
  - destruct (last (filter _ rows)); [done|].
    apply lookup_insert_ne. done.
Qed.

Lemma foldl_lookups_name acc rows k :
  k ≠ "" →
  (foldl lookups_step acc rows).1 !! k =
    match acc.1 !! k with
    | Some r => Some r
    | None => head (filter (has_name k) rows)
    end.
Proof.
  intros Hk. revert acc.
  induction rows as [|r rows IH]; intros acc; simpl.
  { by destruct (acc.1 !! k). }
  rewrite IH, filter_cons. simpl. unfold has_name at 2.
  case_decide as Hn.
  - rewrite Hn, bool_decide_true by done.
    destruct (acc.1 !! k) eqn:E; [by rewrite E|].
    by rewrite lookup_insert_eq.
  - case_bool_decide; [|done].
    destruct (acc.1 !! norm (JStr (featureName r))) eqn:E; [done|].
    by rewrite lookup_insert_ne.
Qed.

Lemma byFeatureIndex_lookup rows n :
  byFeatureIndex rows !! n = last (filter (has_index n) rows).
Proof.
  unfold byFeatureIndex, build_lookups. rewrite foldl_lookups_index. simpl.
  destruct (last _); [done|]. apply lookup_empty.
Qed.

Lemma byFeatureName_lookup rows k :
  k ≠ "" → byFeatureName rows !! k = head (filter (has_name k) rows).
Proof.
  intros Hk. unfold byFeatureName, build_lookups.
  rewrite foldl_lookups_name by done. simpl. by rewrite lookup_empty.
Qed.

Lemma byFeatureName_lookup_empty rows : byFeatureName rows !! "" = None.
Proof.
  unfold byFeatureName, build_lookups.
  assert (∀ acc : gmap string EditableRow * gmap Z EditableRow,
    acc.1 !! "" = None → (foldl lookups_step acc rows).1 !! "" = None) as H.
  { induction rows as [|r rows IH]; intros acc Hacc; simpl; [done|].
    apply IH. simpl. case_bool_decide as Hk; [|done].
    destruct (acc.1 !! norm (JStr (featureName r))); [done|].
    by rewrite lookup_insert_ne. }
  apply H. apply lookup_empty.
Qed.

(** ** Sorting by feature index *)

Lemma sort_insert_Permutation x l : sort_insert x l ≡ₚ x :: l.
Proof.
  induction l as [|y l IH]; simpl; [done|].
  case_match; [done|]. rewrite IH. apply Permutation_swap.
Qed.

Lemma sortByFeatureIndex_Permutation rows : sortByFeatureIndex rows ≡ₚ rows.
Proof.
  induction rows as [|x rows IH]; simpl; [done|].
  rewrite sort_insert_Permutation. by f_equiv.
Qed.

Lemma sort_insert_sorted x l :
  StronglySorted index_le l → StronglySorted index_le (sort_insert x l).
Proof.
  induction 1 as [|y l Hl IH Hy]; simpl.
  { repeat constructor. }
  destruct (featureIndex x <=? featureIndex y)%Z eqn:E.
  - apply Z.leb_le in E. constructor; [by constructor|].
    constructor; [done|].
    eapply Forall_impl; [exact Hy|]. unfold index_le. intros; lia.
  - apply Z.leb_gt in E. constructor; [done|].
    rewrite sort_insert_Permutation. constructor; [|done].
    unfold index_le. lia.
Qed.

Lemma sortByFeatureIndex_sorted rows :
  StronglySorted index_le (sortByFeatureIndex rows).
Proof.
  induction rows as [|x rows IH]; simpl; [constructor|].
  by apply sort_insert_sorted.
Qed.

(** Records with the same index keep their order. *)
Lemma sort_insert_stable n x l :
  filter (has_index n) (sort_insert x l) = filter (has_index n) (x :: l).
Proof.
  induction l as [|y l IH]; simpl; [done|].
  destruct (featureIndex x <=? featureIndex y)%Z eqn:E; [done|].
  apply Z.leb_gt in E.
  rewrite (filter_cons _ y), IH, !filter_cons.
  unfold has_index. repeat case_decide; try done; lia.
Qed.

Lemma sortByFeatureIndex_stable n rows :
  filter (has_index n) (sortByFeatureIndex rows) = filter (has_index n) rows.
Proof.
  induction rows as [|x rows IH]; simpl; [done|].
  by rewrite sort_insert_stable, !filter_cons, IH.
Qed.

(** ** The export, step by step *)

Lemma pipeline_run file rows outputFileName wb :
  pipeline file rows outputFileName wb =
    match preferredSheetName wb with
    | None | Some "" => (wb, inl NoSheetsFound)
    | Some sheetName =>
        match Sheets wb !! sheetName with
        | None => (wb, inl SheetNotFound)
        | Some ws =>
            let aoa := XLSX.sheet_to_json ws in
            if bool_decide (aoa = []) then (wb, inl EmptySheet)
            else if bool_decide (featureColOf aoa = None ∧ featureIndexColOf aoa = None)
            then (wb, inl MissingKeyColumn)
            else ({| SheetNames := SheetNames wb;
                     Sheets := <[sheetName := annotatedSheet rows ws]> (Sheets wb) |},
                  inr (outName file outputFileName))
        end
    end.
Proof.
  unfold pipeline, mbind, M_bind, selectSheet, getAoa.
  destruct (preferredSheetName wb) as [[|a s]|]; [done| |done].
  destruct (Sheets wb !! String a s) as [ws|]; [|done]. simpl.
  destruct (XLSX.sheet_to_json ws) as [|row aoa] eqn:Haoa; [done|].
  rewrite bool_decide_false by done. simpl.
  unfold annotatedSheet, featureColOf, featureIndexColOf, headerRowOf.
  rewrite Haoa.
  destruct (pickColumnIndex _ RegExp.featureCandidates) as [fc|];
    destruct (pickColumnIndex _ RegExp.featureIndexCandidates) as [fic|];
    simpl; try done.
  all: rewrite bool_decide_false by (intros [??]; done); done.
Qed.

Lemma export_Downloaded_inv file rows outputFileName wb' filename :
  exportUploadedExcelWithEstimates (Some file) rows outputFileName
    = Downloaded wb' filename →
  ∃ sheetName ws,
    rows ≠ [] ∧
    preferredSheetName (arrayBuffer file) = Some sheetName ∧
    sheetName ≠ "" ∧
    Sheets (arrayBuffer file) !! sheetName = Some ws ∧
    XLSX.sheet_to_json ws ≠ [] ∧
    ¬ (featureColOf (XLSX.sheet_to_json ws) = None ∧
       featureIndexColOf (XLSX.sheet_to_json ws) = None) ∧
    wb' = {| SheetNames := SheetNames (arrayBuffer file);
             Sheets := <[sheetName := annotatedSheet rows ws]>
                         (Sheets (arrayBuffer file)) |} ∧
    filename = outName file outputFileName.
Proof.
  unfold exportUploadedExcelWithEstimates.
  destruct rows as [|r rows]; [done|].
  rewrite pipeline_run.
  destruct (preferredSheetName _) as [[|a s]|] eqn:Hsel; [done| |done].
  destruct (Sheets _ !! String a s) as [ws|] eqn:Hws; [|done]. simpl.
  case_bool_decide as Haoa; [done|].
  case_bool_decide as Hcols; [done|].
  intros [= <- <-]. exists (String a s), ws. by split_and!.
Qed.

Lemma export_Threw_inv file rows outputFileName e mem :
  exportUploadedExcelWithEstimates file rows outputFileName = Threw e mem →
  mem = None ∨ ∃ f, file = Some f ∧ mem = Some (arrayBuffer f).
Proof.
  unfold exportUploadedExcelWithEstimates.
  destruct file as [f|]; [|intros [= <- <-]; by left].
  destruct rows as [|r rows]; [intros [= <- <-]; by left|].
  rewrite pipeline_run. intros H. right. exists f. split; [done|].
  destruct (preferredSheetName _) as [[|a s]|]; [by simplify_eq| |by simplify_eq].
  destruct (Sheets _ !! String a s) as [ws|]; [|by simplify_eq]. simpl in H.
  repeat case_bool_decide; by simplify_eq.
Qed.

(** ** The parser's view of a sheet *)


Lemma rows_kept_above_le ws r : rows_kept_above ws r ≤ r.
Proof.
  unfold rows_kept_above. etrans; [apply length_filter|].
  rewrite length_take. lia.
Qed.

Lemma filter_all {A} (P : A → Prop) `{!∀ x, Decision (P x)} (l : list A) :
  Forall P l → filter P l = l.
Proof.
  induction 1 as [|x l Hx _ IH]; [done|].
  by rewrite filter_cons, decide_True, IH.
Qed.

Lemma rows_kept_above_all ws r :
  (∀ j row, j < r → ws !! j = Some row → has_value row) →
  r ≤ length ws →
  rows_kept_above ws r = r.
Proof.
  intros Hall Hr. unfold rows_kept_above. rewrite filter_all.
  - rewrite length_take. lia.
  - apply Forall_forall. intros row Hin.
    apply list_elem_of_lookup in Hin as [j Hj].
    pose proof (lookup_lt_Some _ _ _ Hj) as Hlt. rewrite length_take in Hlt.
    rewrite lookup_take_lt in Hj by lia. eapply Hall; [|done]. lia.
Qed.

Lemma rows_kept_above_S ws r :
  rows_kept_above ws (S r) =
    match ws !! r with
    | Some row => if decide (has_value row) then S (rows_kept_above ws r)
                  else rows_kept_above ws r
    | None => rows_kept_above ws r
    end.
Proof.
  unfold rows_kept_above. destruct (ws !! r) as [row|] eqn:E.
  - rewrite (take_S_r _ _ _ E), filter_app, length_app, filter_cons.
    case_decide; simpl; lia.
  - apply lookup_ge_None in E. by rewrite !take_ge by lia.
Qed.

(** The parser keeps the order of the rows it keeps. *)
Lemma rows_kept_above_mono ws r1 r2 row :
  r1 < r2 → ws !! r1 = Some row → has_value row →
  rows_kept_above ws r1 < rows_kept_above ws r2.
Proof.
  intros Hlt Hr1 Hv. induction Hlt as [|r2 Hlt IH].
  - rewrite rows_kept_above_S, Hr1, decide_True by done. lia.
  - rewrite (rows_kept_above_S ws r2).
    destruct (ws !! r2); [case_decide|]; lia.
Qed.







(** ** Cells left of the appended columns *)


(** ** Observing an outcome *)


(** ** Additivity (C1) *)





(** A ragged sheet: the header row has two cells, the first data row four.
    The parser pads the header row to four cells, the appended columns start
    at column 4 and the cell ["v2"] at column 3 is kept. *)
Example ragged_sheet_export :
  (outputSheet
     (exportUploadedExcelWithEstimates
        (Some (Examples.upload "plan.xlsx" [("Features", Examples.featuresRagged)]))
        [Examples.login; Examples.logout] None) "Features"
     ≫= λ ws', ws' !! 1)
  = Some ([Num 1; Text "Login"; Text "-"; Text "v2"]
            ++ (XLSX.json_cell <$> hitCells Examples.login)).
Proof. vm_compute. done. Qed.

(** At the level of the row array alone the columns kept are those left of
    the header's end ([annotate_keeps_base]): in an array whose data row is
    longer than its header row, the writes start inside the data row.  The
    parser never returns such an array ([sheet_to_json_row_length]). *)
Remark annotate_ragged_array :
  annotate [Examples.login] (Some 0) None
    [ [JStr "Feature"]; [JStr "Login"; JStr "v2"] ] !! 1 ≫= (.!! 1)
  = Some (JNum 2).
Proof. vm_compute. done. Qed.

(** ** Header location (C2) *)

Lemma isRowEmpty_app row1 row2 :
  isRowEmpty (row1 ++ row2) = isRowEmpty row1 && isRowEmpty row2.
Proof. apply forallb_app. Qed.

Lemma isRowEmpty_replicate n : isRowEmpty (replicate n (JStr "")) = true.
Proof.
  apply forallb_forall. intros x Hx%list_elem_of_In%elem_of_replicate.
  destruct Hx as [-> _]. by apply bool_decide_eq_true_2.
Qed.

Lemma isRowEmpty_make_json_row width row :
  isRowEmpty (XLSX.make_json_row (JStr "") width row) = row_blank row.
Proof.
  unfold XLSX.make_json_row, row_blank.
  by rewrite isRowEmpty_app, isRowEmpty_replicate, andb_true_r.
Qed.

Lemma row_blank_no_value row : ¬ has_value row → row_blank row = true.
Proof.
  unfold has_value, row_blank, XLSX.isempty. intros H%not_false_is_true.
  rewrite forallb_forall in H. apply forallb_forall.
  intros x (c & -> & Hc)%list_elem_of_In%list_elem_of_fmap.
  apply list_elem_of_In, H, bool_decide_eq_true in Hc as ->.
  by apply bool_decide_eq_true_2.
Qed.

Section ParsedHeader.

Context (width : nat).

Local Abbreviation parse ws :=
  (XLSX.make_json_row (JStr "") width <$> filter has_value ws).

Lemma findHeaderRowIndex_from_parse ws i k hrow :
  ws !! k = Some hrow →
  row_blank hrow = false →
  (∀ j row, j < k → ws !! j = Some row → row_blank row = true) →
  findHeaderRowIndex_from i (parse ws)
  = Some (i + length (filter has_value (take k ws))).
Proof.
  revert i k. induction ws as [|row ws IH]; intros i k Hk Hh Hbefore; [done|].
  destruct k as [|k]; simpl in Hk.
  - simplify_eq. rewrite filter_cons, decide_True.
    2:{ destruct (decide (has_value hrow)) as [|Hn]; [done|].
        apply row_blank_no_value in Hn. congruence. }
    rewrite fmap_cons. cbn [findHeaderRowIndex_from].
    rewrite header_test_nonblank, isRowEmpty_make_json_row, Hh.
    simpl. f_equal. lia.
  - assert (row_blank row = true) as Hrow by (apply (Hbefore 0); [lia|done]).
    assert (∀ j r', j < k → ws !! j = Some r' → row_blank r' = true) as Hb.
    { intros j r' Hj Hr'. apply (Hbefore (S j)); [lia|done]. }
    rewrite firstn_cons, !filter_cons. case_decide.
    + rewrite fmap_cons. cbn [findHeaderRowIndex_from].
      rewrite header_test_nonblank, isRowEmpty_make_json_row, Hrow.
      cbn [negb]. rewrite (IH (S i) k) by done. f_equal. simpl. lia.
    + by rewrite (IH i k).
Qed.

Lemma findHeaderRowIndex_from_parse_blank ws i :
  (∀ j row, ws !! j = Some row → row_blank row = true) →
  findHeaderRowIndex_from i (parse ws) = None.
Proof.
  revert i. induction ws as [|row ws IH]; intros i Hall; [done|].
  assert (row_blank row = true) as Hrow by by apply (Hall 0).
  assert (∀ j r', ws !! j = Some r' → row_blank r' = true) as Hb.
  { intros j r' Hr'. by apply (Hall (S j)). }
  rewrite filter_cons. case_decide.
  - rewrite fmap_cons. cbn [findHeaderRowIndex_from].
    rewrite header_test_nonblank, isRowEmpty_make_json_row, Hrow.
    by apply IH.
  - by apply IH.
Qed.

End ParsedHeader.

(** C2, as amended.  The located index counts rows of the parsed array, from
    which the parser has removed every row without a cell value: it is the
    number of value-holding rows above the first row of the sheet that is not
    entirely blank (that row's own index when no value-less row precedes
    it), and [0] when every row is blank. *)
Theorem header_index_counts_parsed_rows ws :
  (∀ k hrow,
     ws !! k = Some hrow →
     row_blank hrow = false →
     (∀ j row, j < k → ws !! j = Some row → row_blank row = true) →
     findHeaderRowIndex (XLSX.sheet_to_json ws) = rows_kept_above ws k ∧
     ((∀ j row, j < k → ws !! j = Some row → has_value row) →
      findHeaderRowIndex (XLSX.sheet_to_json ws) = k)) ∧
  ((∀ j row, ws !! j = Some row → row_blank row = true) →
   findHeaderRowIndex (XLSX.sheet_to_json ws) = 0).
Proof.
  split.
  - intros k hrow Hk Hh Hbefore.
    assert (findHeaderRowIndex (XLSX.sheet_to_json ws) = rows_kept_above ws k) as E.
    { unfold findHeaderRowIndex, XLSX.sheet_to_json.
      by rewrite (findHeaderRowIndex_from_parse _ ws 0 k hrow). }
    split; [done|]. intros Hall. rewrite E.
    apply rows_kept_above_all; [done|]. apply lookup_lt_Some in Hk. lia.
  - intros Hall. unfold findHeaderRowIndex, XLSX.sheet_to_json.
    by rewrite findHeaderRowIndex_from_parse_blank.
Qed.

(** Two leading rows of white-space text are kept by the parser and skipped
    by the locator: the header index is [2]. *)
Lemma header_index_counts_parsed_rows_witness :
  findHeaderRowIndex (XLSX.sheet_to_json Examples.featuresBelowSpaces)
    = rows_kept_above Examples.featuresBelowSpaces 2 ∧
  ((∀ j row, j < 2 → Examples.featuresBelowSpaces !! j = Some row → has_value row) →
   findHeaderRowIndex (XLSX.sheet_to_json Examples.featuresBelowSpaces) = 2).
Proof.
  apply (proj1 (header_index_counts_parsed_rows Examples.featuresBelowSpaces)
           2 [Text "Sr No"; Text "Feature"; Text "Notes"]).
  - reflexivity.
  - vm_compute. reflexivity.
  - intros [|[|j]] row Hj Hrow; [| |lia]; vm_compute in Hrow; by simplify_eq.
Defined.

(** C2, as stated, fails: the first two rows of the sheet are blank, its
    third row holds the headers, and the located header index is [0]. *)
Lemma header_index_below_blank_rows :
  (row_blank <$> Examples.featuresBelowTwoBlanks !! 0) = Some true ∧
  (row_blank <$> Examples.featuresBelowTwoBlanks !! 1) = Some true ∧
  (row_blank <$> Examples.featuresBelowTwoBlanks !! 2) = Some false ∧
  findHeaderRowIndex (XLSX.sheet_to_json Examples.featuresBelowTwoBlanks) = 0.
Proof. vm_compute. done. Qed.

(** ** The resolver *)

Lemma last_filter_elem {A} (P : A → Prop) `{!∀ x, Decision (P x)} (l : list A) x :
  x ∈ l → P x → ∃ y, last (filter P l) = Some y ∧ y ∈ l ∧ P y.
Proof.
  intros Hx HP.
  destruct (last (filter P l)) as [y|] eqn:E.
  - exists y. split; [done|].
    apply last_Some_elem_of, list_elem_of_filter in E as [??]. done.
  - apply last_None in E. exfalso.
    eapply filter_nil_not_elem_of; [exact E|exact HP|exact Hx].
Qed.

Lemma last_filter_unique {A} (P : A → Prop) `{!∀ x, Decision (P x)} (l : list A) x :
  x ∈ l → P x → (∀ y, y ∈ l → P y → y = x) → last (filter P l) = Some x.
Proof.
  intros Hx HP Huniq.
  destruct (last_filter_elem P l x Hx HP) as (y & -> & Hy & HPy).
  f_equal. by apply Huniq.
Qed.

(** C9.  With the lookups built from the record list, a name match on a
    (non-empty) normalised name gives the first record of the list carrying
    that normalised name, and an index match gives the last record of the
    list carrying that index: [byFeatureName] keeps an existing entry,
    [byFeatureIndex] overwrites it. *)
Theorem duplicate_keys_first_name_last_index rows c row :
  (norm (at_index row c) ≠ "" →
   nameHit (byFeatureName rows) (Some c) row
   = head (filter (has_name (norm (at_index row c))) rows)) ∧
  (∀ n, ToNumber (at_index row c) = Some n →
   indexHit (byFeatureIndex rows) (Some c) row
   = last (filter (has_index n) rows)).
Proof.
  split.
  - intros Hk. unfold nameHit. by apply byFeatureName_lookup.
  - intros n Hn. unfold indexHit. rewrite Hn. apply byFeatureIndex_lookup.
Qed.

Lemma duplicate_keys_first_name_last_index_witness :
  nameHit (byFeatureName [Examples.loginDraft; Examples.loginFinal]) (Some 1)
    [JNum 1; JStr "login"]
  = head (filter (has_name (norm (at_index [JNum 1; JStr "login"] 1)))
            [Examples.loginDraft; Examples.loginFinal]) ∧
  indexHit (byFeatureIndex [Examples.loginDraft; Examples.loginFinal]) (Some 0)
    [JNum 1; JStr "login"]
  = last (filter (has_index 1) [Examples.loginDraft; Examples.loginFinal]).
Proof.
  split.
  - apply (proj1 (duplicate_keys_first_name_last_index
                    [Examples.loginDraft; Examples.loginFinal] 1
                    [JNum 1; JStr "login"])).
    vm_compute. discriminate.
  - apply (proj2 (duplicate_keys_first_name_last_index
                    [Examples.loginDraft; Examples.loginFinal] 0
                    [JNum 1; JStr "login"]) 1%Z).
    reflexivity.
Defined.

(** The two lookups of the sample evaluate to the first and to the last of
    the two records. *)
Example duplicate_keys_sample :
  confidence <$> nameHit (byFeatureName [Examples.loginDraft; Examples.loginFinal])
                   (Some 1) [JNum 1; JStr "login"] = Some "Low" ∧
  confidence <$> indexHit (byFeatureIndex [Examples.loginDraft; Examples.loginFinal])
                   (Some 0) [JNum 1; JStr "login"] = Some "High".
Proof. vm_compute. done. Qed.



(** Evaluated: the hit is [login]. *)
Example key_precedence_sample :
  findHit [Examples.login; Examples.logout]
    (byFeatureName [Examples.login; Examples.logout])
    (byFeatureIndex [Examples.login; Examples.logout]) (Some 1) (Some 0)
    0 1 [JNum 1; JStr "Logout"; JStr "-"] = Some Examples.login.
Proof. vm_compute. done. Qed.

(** In that sample the name cell alone would have resolved to [logout]. *)
Example name_match_of_sample :
  nameHit (byFeatureName [Examples.login; Examples.logout]) (Some 1)
    [JNum 1; JStr "Logout"; JStr "-"] = Some Examples.logout.
Proof. vm_compute. done. Qed.

(** C10.  A blank cell of the sheet (or a cell the row does not have) comes
    out of the parser as the empty string, [Number("")] is [0], and so, when
    a feature-index column exists and some record has [featureIndex] [0], a
    row whose index cell is blank resolves to a record with index [0] at the
    index step: the hit does not depend on the lookups by name, the name
    column or the row's position, and a non-blank row is filled from it. *)
Theorem blank_index_cell_reads_zero rows width srow c A :
  c < width →
  srow !! c = Some Blank ∨ srow !! c = None →
  A ∈ rows →
  featureIndex A = 0%Z →
  at_index (XLSX.make_json_row (JStr "") width srow) c = JStr "" ∧
  ToNumber (JStr "") = Some 0%Z ∧
  ∃ hit,
    hit ∈ rows ∧ featureIndex hit = 0%Z ∧
    byFeatureIndex rows !! 0%Z = Some hit ∧
    ∀ byName featureCol baseLen headerRowIndex r,
      findHit rows byName (byFeatureIndex rows) featureCol (Some c)
        headerRowIndex r (XLSX.make_json_row (JStr "") width srow) = Some hit ∧
      (isRowEmpty (XLSX.make_json_row (JStr "") width srow) = false →
       fillRow rows byName (byFeatureIndex rows) featureCol (Some c)
         baseLen headerRowIndex r (XLSX.make_json_row (JStr "") width srow)
       = write_cells baseLen (hitCells hit)
           (pad_to (baseLen + length appendedHeaders)
              (XLSX.make_json_row (JStr "") width srow))).
Proof.
  intros Hc Hblank HA HA0.
  assert (at_index (XLSX.make_json_row (JStr "") width srow) c = JStr "") as Hcell.
  { unfold at_index, XLSX.make_json_row. destruct Hblank as [Hb|Hb].
    - rewrite lookup_app_l.
      2:{ rewrite length_fmap. by eapply lookup_lt_Some. }
      by rewrite list_lookup_fmap, Hb.
    - apply lookup_ge_None in Hb. rewrite lookup_app_r by (rewrite length_fmap; lia).
      rewrite length_fmap, lookup_replicate_2 by lia. done. }
  split; [done|]. split; [reflexivity|].
  destruct (last_filter_elem (has_index 0%Z) rows A HA HA0) as (hit & Hlast & Hin & Hhit).
  exists hit. split_and!; [done|done|by rewrite byFeatureIndex_lookup|].
  intros byName featureCol baseLen headerRowIndex r.
  assert (findHit rows byName (byFeatureIndex rows) featureCol (Some c)
            headerRowIndex r (XLSX.make_json_row (JStr "") width srow) = Some hit) as Hfind.
  { unfold findHit, indexHit. rewrite Hcell. simpl.
    change (StringToNumber "") with (Some 0%Z). simpl.
    by rewrite byFeatureIndex_lookup, Hlast. }
  split; [done|]. intros Hrow. unfold fillRow. by rewrite Hrow, Hfind.
Qed.

(** The sheet row [[Blank; "Login"]] under the columns index, name:
    the record with index [0] is taken although the name is another's. *)
Lemma blank_index_cell_reads_zero_witness :
  at_index (XLSX.make_json_row (JStr "") 2 [Blank; Text "Profile"]) 0 = JStr "" ∧
  ToNumber (JStr "") = Some 0%Z ∧
  ∃ hit,
    hit ∈ [Examples.profile; Examples.search] ∧ featureIndex hit = 0%Z ∧
    byFeatureIndex [Examples.profile; Examples.search] !! 0%Z = Some hit ∧
    ∀ byName featureCol baseLen headerRowIndex r,
      findHit [Examples.profile; Examples.search] byName
        (byFeatureIndex [Examples.profile; Examples.search]) featureCol (Some 0)
        headerRowIndex r (XLSX.make_json_row (JStr "") 2 [Blank; Text "Profile"])
      = Some hit ∧
      (isRowEmpty (XLSX.make_json_row (JStr "") 2 [Blank; Text "Profile"]) = false →
       fillRow [Examples.profile; Examples.search] byName
         (byFeatureIndex [Examples.profile; Examples.search]) featureCol (Some 0)
         baseLen headerRowIndex r
         (XLSX.make_json_row (JStr "") 2 [Blank; Text "Profile"])
       = write_cells baseLen (hitCells hit)
           (pad_to (baseLen + length appendedHeaders)
              (XLSX.make_json_row (JStr "") 2 [Blank; Text "Profile"]))).
Proof.
  apply (blank_index_cell_reads_zero [Examples.profile; Examples.search]
           2 [Blank; Text "Profile"] 0 Examples.search).
  - lia.
  - left. reflexivity.
  - apply list_elem_of_further, list_elem_of_here.
  - reflexivity.
Defined.

(** ** Positional fallback (C3) *)

Lemma nonblank_ordinal_offset aoa headerRowIndex r :
  r ≤ length aoa →
  (∀ j row, headerRowIndex < j < r → aoa !! j = Some row → isRowEmpty row = false) →
  nonblank_ordinal aoa headerRowIndex r = r - (headerRowIndex + 1).
Proof.
  intros Hr Hall. unfold nonblank_ordinal. rewrite filter_all.
  - rewrite length_take, length_drop. lia.
  - apply Forall_forall. intros row Hin.
    apply list_elem_of_lookup in Hin as [j Hj].
    pose proof (lookup_lt_Some _ _ _ Hj) as Hlt.
    rewrite length_take, length_drop in Hlt.
    rewrite lookup_take_lt, lookup_drop in Hj by lia.
    eapply Hall; [|done]. lia.
Qed.

Lemma sorted_head_least rows hit :
  sortByFeatureIndex rows !! 0 = Some hit →
  hit ∈ rows ∧ ∀ x, x ∈ rows → (featureIndex hit ≤ featureIndex x)%Z.
Proof.
  intros H0. pose proof (sortByFeatureIndex_sorted rows) as Hs.
  pose proof (sortByFeatureIndex_Permutation rows) as Hp.
  destruct (sortByFeatureIndex rows) as [|y l]; [done|].
  simpl in H0. simplify_eq. split.
  - rewrite <-Hp. apply list_elem_of_here.
  - intros x Hx. rewrite <-Hp in Hx.
    apply StronglySorted_inv in Hs as [_ Hall].
    apply elem_of_cons in Hx as [->|Hx]; [done|].
    rewrite Forall_forall in Hall. by apply Hall.
Qed.

(** C3, as amended.  When neither key resolves a record for a row, the
    resolver takes, from the records sorted ascending by [featureIndex]
    (a stable sort of the whole list), the one at the position
    [r - (headerRowIndex + 1)]: the row's offset from the first row after
    the header in the parsed array, rows that are blank after normalisation
    included.  That offset is the row's ordinal among the non-blank data rows
    whenever no blank row lies between the header and the row; and an
    unmatched row directly after the header receives a record of least
    [featureIndex]. *)
Theorem fallback_by_row_offset rows byName byIndex featureCol featureIndexCol
    headerRowIndex r row :
  indexHit byIndex featureIndexCol row = None →
  nameHit byName featureCol row = None →
  findHit rows byName byIndex featureCol featureIndexCol headerRowIndex r row
    = sortByFeatureIndex rows !! (r - (headerRowIndex + 1)) ∧
  StronglySorted index_le (sortByFeatureIndex rows) ∧
  sortByFeatureIndex rows ≡ₚ rows ∧
  (∀ aoa,
     r ≤ length aoa →
     (∀ j row', headerRowIndex < j < r → aoa !! j = Some row' →
                isRowEmpty row' = false) →
     r - (headerRowIndex + 1) = nonblank_ordinal aoa headerRowIndex r) ∧
  (r = headerRowIndex + 1 → rows ≠ [] →
   ∃ hit,
     findHit rows byName byIndex featureCol featureIndexCol headerRowIndex r row
       = Some hit ∧
     hit ∈ rows ∧ ∀ x, x ∈ rows → (featureIndex hit ≤ featureIndex x)%Z).
Proof.
  intros Hidx Hname.
  assert (findHit rows byName byIndex featureCol featureIndexCol headerRowIndex r row
          = sortByFeatureIndex rows !! (r - (headerRowIndex + 1))) as Hfind.
  { unfold findHit, fallbackHit. by rewrite Hidx, Hname. }
  split_and!; [done|apply sortByFeatureIndex_sorted
              |apply sortByFeatureIndex_Permutation| |].
  - intros aoa Hr Hall. by rewrite nonblank_ordinal_offset.
  - intros -> Hrows. rewrite Hfind.
    replace (headerRowIndex + 1 - (headerRowIndex + 1)) with 0 by lia.
    destruct (sortByFeatureIndex rows !! 0) as [hit|] eqn:E.
    + exists hit. split; [done|]. by apply sorted_head_least.
    + apply lookup_ge_None in E.
      pose proof (Permutation_length (sortByFeatureIndex_Permutation rows)) as Hl.
      destruct rows; [done|]. simpl in *. lia.
Qed.

(** The first data row, matched by neither key, receives the record with
    index [0] of the records with the indices [1] and [0]. *)
Lemma fallback_by_row_offset_witness :
  findHit [Examples.profile; Examples.search]
    (byFeatureName [Examples.profile; Examples.search])
    (byFeatureIndex [Examples.profile; Examples.search]) (Some 0) None 0 1
    [JStr "Payments"]
  = sortByFeatureIndex [Examples.profile; Examples.search] !! (1 - (0 + 1)) ∧
  StronglySorted index_le (sortByFeatureIndex [Examples.profile; Examples.search]) ∧
  sortByFeatureIndex [Examples.profile; Examples.search]
    ≡ₚ [Examples.profile; Examples.search] ∧
  (∀ aoa,
     1 ≤ length aoa →
     (∀ j row', 0 < j < 1 → aoa !! j = Some row' → isRowEmpty row' = false) →
     1 - (0 + 1) = nonblank_ordinal aoa 0 1) ∧
  (1 = 0 + 1 → [Examples.profile; Examples.search] ≠ [] →
   ∃ hit,
     findHit [Examples.profile; Examples.search]
       (byFeatureName [Examples.profile; Examples.search])
       (byFeatureIndex [Examples.profile; Examples.search]) (Some 0) None 0 1
       [JStr "Payments"] = Some hit ∧
     hit ∈ [Examples.profile; Examples.search] ∧
     ∀ x, x ∈ [Examples.profile; Examples.search] →
          (featureIndex hit ≤ featureIndex x)%Z).
Proof.
  apply (fallback_by_row_offset [Examples.profile; Examples.search]
           (byFeatureName [Examples.profile; Examples.search])
           (byFeatureIndex [Examples.profile; Examples.search]) (Some 0) None 0 1
           [JStr "Payments"]).
  - reflexivity.
  - vm_compute. reflexivity.
Defined.

Example fallback_first_row_sample :
  findHit [Examples.profile; Examples.search]
    (byFeatureName [Examples.profile; Examples.search])
    (byFeatureIndex [Examples.profile; Examples.search]) (Some 0) None 0 1
    [JStr "Payments"] = Some Examples.search.
Proof. vm_compute. done. Qed.

(** C3, as stated, fails.  In the parsed array of [Examples.spaced] the row
    ["Payments"] is the first non-blank data row (ordinal [0]) and the first
    row no key matches, yet it receives the record at position [1] of the
    sorted records, the one with [featureIndex] [1]: the row of spaces above
    it is counted.  The exported sheet carries that record's hours. *)
Lemma fallback_counts_blank_rows :
  XLSX.sheet_to_json Examples.spaced
    = [ [JStr "Feature"]; [JStr " "]; [JStr "Payments"] ] ∧
  findHeaderRowIndex (XLSX.sheet_to_json Examples.spaced) = 0 ∧
  isRowEmpty [JStr " "] = true ∧
  nonblank_ordinal (XLSX.sheet_to_json Examples.spaced) 0 2 = 0 ∧
  indexHit (byFeatureIndex [Examples.search; Examples.profile]) None
    [JStr "Payments"] = None ∧
  nameHit (byFeatureName [Examples.search; Examples.profile]) (Some 0)
    [JStr "Payments"] = None ∧
  featureIndex <$> sortByFeatureIndex [Examples.search; Examples.profile] !! 0
    = Some 0%Z ∧
  featureIndex <$>
    findHit [Examples.search; Examples.profile]
      (byFeatureName [Examples.search; Examples.profile])
      (byFeatureIndex [Examples.search; Examples.profile]) (Some 0) None 0 2
      [JStr "Payments"] = Some 1%Z ∧
  (outputSheet
     (exportUploadedExcelWithEstimates
        (Some (Examples.upload "plan.xlsx" [("Features", Examples.spaced)]))
        [Examples.search; Examples.profile] None) "Features"
     ≫= λ ws', ws' !! 2)
  = Some (Text "Payments" :: (XLSX.json_cell <$> hitCells Examples.profile)).
Proof. vm_compute. done. Qed.

(** Without the row of spaces the same data row receives the record with
    index [0]. *)
Example fallback_without_blank_row :
  (outputSheet
     (exportUploadedExcelWithEstimates
        (Some (Examples.upload "plan.xlsx" [("Features", Examples.unspaced)]))
        [Examples.search; Examples.profile] None) "Features"
     ≫= λ ws', ws' !! 1)
  = Some (Text "Payments" :: (XLSX.json_cell <$> hitCells Examples.search)).
Proof. vm_compute. done. Qed.

(** ** Appended columns (C6) *)

Lemma hitCells_length hit : length (hitCells hit) = length appendedHeaders.
Proof.
  unfold hitCells, DEPARTMENTS. simpl.
  by destruct (ranges hit frontend), (ranges hit backend), (ranges hit mobile),
       (ranges hit htmlCss), (ranges hit aiMl).
Qed.

Lemma fillRow_hit_lookup rows byName byIndex featureCol featureIndexCol
    baseLen headerRowIndex r row hit i v :
  isRowEmpty row = false →
  findHit rows byName byIndex featureCol featureIndexCol headerRowIndex r row
    = Some hit →
  hitCells hit !! i = Some v →
  fillRow rows byName byIndex featureCol featureIndexCol baseLen headerRowIndex
    r row !! (baseLen + i) = Some v.
Proof.
  intros Hrow Hhit Hi. unfold fillRow. rewrite Hrow, Hhit.
  apply write_cells_lookup_written; [|done].
  rewrite pad_to_length, hitCells_length. lia.
Qed.

Lemma hitCells_department hit k d hr :
  DEPARTMENTS !! k = Some d →
  ranges hit d = Some hr →
  hitCells hit !! (3 * k) = Some (JNum (HoursRange.min hr)) ∧
  hitCells hit !! (3 * k + 1) = Some (JNum (HoursRange.mostLikely hr)) ∧
  hitCells hit !! (3 * k + 2) = Some (JNum (HoursRange.max hr)).
Proof.
  intros Hk Hd. unfold hitCells, DEPARTMENTS in *.
  do 5 (destruct k as [|k]; [simpl in Hk; simplify_eq; simpl; rewrite ?Hd;
     by destruct (ranges hit frontend), (ranges hit backend), (ranges hit mobile),
       (ranges hit htmlCss), (ranges hit aiMl); simplify_eq|]).
  done.
Qed.

Lemma hitCells_scalars hit :
  hitCells hit !! 15 = Some (JStr (confidence hit)) ∧
  hitCells hit !! 16 = Some (JStr (complexity hit)) ∧
  hitCells hit !! 17 = Some (JStr (techRemarks hit)) ∧
  hitCells hit !! 18 = Some (JStr (userRemark hit)).
Proof.
  unfold hitCells, DEPARTMENTS. simpl.
  by destruct (ranges hit frontend), (ranges hit backend), (ranges hit mobile),
       (ranges hit htmlCss), (ranges hit aiMl).
Qed.

(** C6.  The header row of the annotated array is the old header row
    followed by the nineteen appended headers: for the [k]-th department of
    [DEPARTMENTS] the headers [AI <label> Min], [AI <label> MostLikely],
    [AI <label> Max] at the offsets [3k], [3k+1], [3k+2], then
    [AI Confidence], [AI Complexity], [AI Tech Remarks], [AI User Remark].
    Every data row for which a record was resolved holds, at the same
    offsets from the end of the old header row, the record's [min],
    [mostLikely] and [max] of that department and then its [confidence],
    [complexity], [techRemarks] and [userRemark]. *)
Theorem appended_columns rows featureCol featureIndexCol aoa :
  aoa ≠ [] →
  appendedHeaders =
    [ "AI Frontend Min"; "AI Frontend MostLikely"; "AI Frontend Max";
      "AI Backend Min"; "AI Backend MostLikely"; "AI Backend Max";
      "AI Mobile Min"; "AI Mobile MostLikely"; "AI Mobile Max";
      "AI HTML/CSS Min"; "AI HTML/CSS MostLikely"; "AI HTML/CSS Max";
      "AI AI/ML Min"; "AI AI/ML MostLikely"; "AI AI/ML Max";
      "AI Confidence"; "AI Complexity"; "AI Tech Remarks"; "AI User Remark" ] ∧
  (∀ k d, DEPARTMENTS !! k = Some d →
     appendedHeaders !! (3 * k) = Some ("AI " +:+ deptLabel d +:+ " Min") ∧
     appendedHeaders !! (3 * k + 1) = Some ("AI " +:+ deptLabel d +:+ " MostLikely") ∧
     appendedHeaders !! (3 * k + 2) = Some ("AI " +:+ deptLabel d +:+ " Max")) ∧
  annotate rows featureCol featureIndexCol aoa !! findHeaderRowIndex aoa
    = Some (headerRowOf aoa ++ (JStr <$> appendedHeaders)) ∧
  ∀ r row hit,
    findHeaderRowIndex aoa < r →
    aoa !! r = Some row →
    isRowEmpty row = false →
    findHit rows (byFeatureName rows) (byFeatureIndex rows) featureCol
      featureIndexCol (findHeaderRowIndex aoa) r row = Some hit →
    ∃ row',
      annotate rows featureCol featureIndexCol aoa !! r = Some row' ∧
      (∀ k d hr, DEPARTMENTS !! k = Some d → ranges hit d = Some hr →
         row' !! (length (headerRowOf aoa) + 3 * k)
           = Some (JNum (HoursRange.min hr)) ∧
         row' !! (length (headerRowOf aoa) + (3 * k + 1))
           = Some (JNum (HoursRange.mostLikely hr)) ∧
         row' !! (length (headerRowOf aoa) + (3 * k + 2))
           = Some (JNum (HoursRange.max hr))) ∧
      row' !! (length (headerRowOf aoa) + 15) = Some (JStr (confidence hit)) ∧
      row' !! (length (headerRowOf aoa) + 16) = Some (JStr (complexity hit)) ∧
      row' !! (length (headerRowOf aoa) + 17) = Some (JStr (techRemarks hit)) ∧
      row' !! (length (headerRowOf aoa) + 18) = Some (JStr (userRemark hit)).
Proof.
  intros Hne. split_and!.
  - reflexivity.
  - intros k d Hk. unfold DEPARTMENTS in Hk.
    do 5 (destruct k as [|k]; [by simplify_eq/=|]). done.
  - by apply annotate_lookup_header.
  - intros r row hit Hr Hrow Hnb Hhit.
    rewrite annotate_lookup_data, Hrow by done. simpl.
    eexists; split; [done|]. fold (headerRowOf aoa).
    destruct (hitCells_scalars hit) as (H15 & H16 & H17 & H18).
    split_and!; [|by eapply fillRow_hit_lookup..].
    intros k d hr Hk Hd.
    destruct (hitCells_department hit k d hr Hk Hd) as (H0 & H1 & H2).
    split_and!; by eapply fillRow_hit_lookup.
Qed.

(** The scenario: headers [Sr No], [Feature], [Notes] and the rows of
    [login] and [logout]. *)
Lemma appended_columns_witness :
  XLSX.sheet_to_json Examples.features ≠ [] ∧
  annotate [Examples.login; Examples.logout] (Some 1) (Some 0)
    (XLSX.sheet_to_json Examples.features)
    !! findHeaderRowIndex (XLSX.sheet_to_json Examples.features)
  = Some (headerRowOf (XLSX.sheet_to_json Examples.features)
            ++ (JStr <$> appendedHeaders)).
Proof.
  split; [vm_compute; discriminate|].
  apply (appended_columns [Examples.login; Examples.logout] (Some 1) (Some 0)
           (XLSX.sheet_to_json Examples.features)).
  vm_compute. discriminate.
Defined.

Example scenario_export :
  outputSheet
    (exportUploadedExcelWithEstimates
       (Some (Examples.upload "plan.xlsx" [("Features", Examples.features)]))
       [Examples.login; Examples.logout] None) "Features"
  = Some
      [ [Text "Sr No"; Text "Feature"; Text "Notes"]
          ++ (Text <$> appendedHeaders);
        [Num 1; Text "Login"; Text "-"]
          ++ (XLSX.json_cell <$> hitCells Examples.login);
        [Num 2; Text "Logout"; Text "-"]
          ++ (XLSX.json_cell <$> hitCells Examples.logout) ] ∧
  take 3 (hitCells Examples.login) = [JNum 2; JNum 4; JNum 6] ∧
  hitCells Examples.login !! 15 = Some (JStr "High") ∧
  take 3 (hitCells Examples.logout) = [JNum 1; JNum 2; JNum 3] ∧
  hitCells Examples.logout !! 15 = Some (JStr "Low").
Proof. vm_compute. done. Qed.

(** ** The suggested file name (C7) *)

Lemma string_app_nil_r s : s +:+ "" = s.
Proof. induction s as [|a s IH]; [done|]. unfold String.app in *. simpl. by rewrite IH. Qed.

Lemma string_rev_app_app s1 s2 acc :
  String.rev_app (s1 +:+ s2) acc = String.rev_app s2 (String.rev_app s1 acc).
Proof.
  revert acc. induction s1 as [|a s1 IH]; intros acc; [done|].
  change (String a s1 +:+ s2) with (String a (s1 +:+ s2)). simpl. apply IH.
Qed.

Lemma string_rev_app_rev_app s acc1 acc2 :
  String.rev_app (String.rev_app s acc1) acc2 = String.rev_app acc1 (s +:+ acc2).
Proof.
  revert acc1 acc2. induction s as [|a s IH]; intros acc1 acc2; [done|].
  simpl. by rewrite IH.
Qed.

Lemma string_rev_involutive s : String.rev (String.rev s) = s.
Proof.
  unfold String.rev. rewrite string_rev_app_rev_app. simpl.
  apply string_app_nil_r.
Qed.

Lemma string_rev_app s1 s2 :
  String.rev (s1 +:+ s2) = String.rev_app s2 (String.rev s1).
Proof. apply string_rev_app_app. Qed.

Lemma stripExtension_xlsx base ext :
  toLowerCase ext = ".xlsx" → stripExtension (base +:+ ext) = base.
Proof.
  intros Hext.
  destruct ext as [|a1 [|a2 [|a3 [|a4 [|a5 [|a6 ext]]]]]]; try done.
  unfold stripExtension. rewrite string_rev_app.
  cbn [String.rev_app]. simpl in Hext.
  rewrite bool_decide_true by (simpl; exact Hext).
  apply string_rev_involutive.
Qed.

Lemma stripExtension_xls base ext :
  toLowerCase ext = ".xls" → stripExtension (base +:+ ext) = base.
Proof.
  intros Hext.
  destruct ext as [|a1 [|a2 [|a3 [|a4 [|a5 ext]]]]]; try done.
  unfold stripExtension. rewrite string_rev_app.
  cbn [String.rev_app]. simpl in Hext.
  destruct (String.rev base) as [|c5 rest5] eqn:Hrev.
  - rewrite bool_decide_true by (simpl; exact Hext).
    rewrite <-(string_rev_involutive base), Hrev. done.
  - rewrite bool_decide_false.
    2:{ simpl. rewrite Hext. intros [= _ ?]. }
    rewrite bool_decide_true by (simpl; exact Hext).
    rewrite <-Hrev. apply string_rev_involutive.
Qed.

(** C7, as amended.  An explicit output name is used verbatim.  Without
    one, the name is the original file's name without its spreadsheet
    extension ([.xlsx] or [.xls], in any letter case) followed by the fixed
    suffix [_with_estimates.xlsx]: the extension of the suggestion is always
    [xlsx], the format the workbook is written in.  The name handed to the
    download is that name. *)
Theorem suggested_file_name file :
  (∀ n, outName file (Some n) = n) ∧
  (∀ base ext,
     name file = base +:+ ext →
     toLowerCase ext = ".xlsx" ∨ toLowerCase ext = ".xls" →
     outName file None = base +:+ "_with_estimates.xlsx") ∧
  (∀ rows outputFileName wb' filename,
     exportUploadedExcelWithEstimates (Some file) rows outputFileName
       = Downloaded wb' filename →
     filename = outName file outputFileName).
Proof.
  split_and!.
  - done.
  - intros base ext Hname Hext. unfold outName. rewrite Hname.
    by destruct Hext; [rewrite stripExtension_xlsx|rewrite stripExtension_xls].
  - intros rows outputFileName wb' filename Hexp.
    by apply export_Downloaded_inv in Hexp
      as (_ & _ & _ & _ & _ & _ & _ & _ & _ & ->).
Qed.

Lemma suggested_file_name_witness :
  outName (Examples.upload "plan.XLS" [("Features", Examples.features)]) None
  = "plan" +:+ "_with_estimates.xlsx".
Proof.
  apply (proj1 (proj2 (suggested_file_name
           (Examples.upload "plan.XLS" [("Features", Examples.features)])))
           "plan" ".XLS").
  - reflexivity.
  - right. reflexivity.
Defined.

(** C7, as stated, fails: for the upload [legacy.xls] the suggested name ends
    in [.xlsx], not in the original extension [.xls]. *)
Lemma suggested_file_name_keeps_no_xls :
  name (Examples.upload "legacy.xls" [("Features", Examples.features)])
    = "legacy" +:+ ".xls" ∧
  filenameOf
    (exportUploadedExcelWithEstimates
       (Some (Examples.upload "legacy.xls" [("Features", Examples.features)]))
       [Examples.login; Examples.logout] None)
    = Some "legacy_with_estimates.xlsx" ∧
  "legacy_with_estimates.xlsx" ≠ "legacy" +:+ "_with_estimates" +:+ ".xls".
Proof. vm_compute. done. Qed.

(** ** Errors (C5) *)

Lemma preferredSheetName_nil wb : SheetNames wb = [] → preferredSheetName wb = None.
Proof. unfold preferredSheetName. by intros ->. Qed.

(** C5.  The checks are made in this order, each error being raised when the
    earlier checks have passed: no file, [MissingFile]; no record,
    [NoEstimatesProvided]; no sheet, [NoSheetsFound]; a selected sheet
    without rows, [EmptySheet]; a header row with neither key column,
    [MissingKeyColumn].  Whenever the export throws, the in-memory workbook
    (if one was parsed) is the parsed workbook, unchanged.  When the checks
    pass the export succeeds whatever the rows match: resolving a row never
    throws. *)
Theorem export_errors rows outputFileName :
  exportUploadedExcelWithEstimates None rows outputFileName
    = Threw MissingFile None ∧
  (∀ file,
     exportUploadedExcelWithEstimates (Some file) [] outputFileName
       = Threw NoEstimatesProvided None) ∧
  (∀ file,
     rows ≠ [] →
     SheetNames (arrayBuffer file) = [] →
     exportUploadedExcelWithEstimates (Some file) rows outputFileName
       = Threw NoSheetsFound (Some (arrayBuffer file))) ∧
  (∀ file sheetName,
     rows ≠ [] →
     preferredSheetName (arrayBuffer file) = Some sheetName →
     sheetName ≠ "" →
     Sheets (arrayBuffer file) !! sheetName = Some [] →
     exportUploadedExcelWithEstimates (Some file) rows outputFileName
       = Threw EmptySheet (Some (arrayBuffer file))) ∧
  (∀ file sheetName ws,
     rows ≠ [] →
     preferredSheetName (arrayBuffer file) = Some sheetName →
     sheetName ≠ "" →
     Sheets (arrayBuffer file) !! sheetName = Some ws →
     XLSX.sheet_to_json ws ≠ [] →
     featureColOf (XLSX.sheet_to_json ws) = None →
     featureIndexColOf (XLSX.sheet_to_json ws) = None →
     exportUploadedExcelWithEstimates (Some file) rows outputFileName
       = Threw MissingKeyColumn (Some (arrayBuffer file))) ∧
  (∀ file e mem,
     exportUploadedExcelWithEstimates file rows outputFileName = Threw e mem →
     mem = None ∨ ∃ f, file = Some f ∧ mem = Some (arrayBuffer f)) ∧
  (∀ file sheetName ws,
     rows ≠ [] →
     preferredSheetName (arrayBuffer file) = Some sheetName →
     sheetName ≠ "" →
     Sheets (arrayBuffer file) !! sheetName = Some ws →
     XLSX.sheet_to_json ws ≠ [] →
     ¬ (featureColOf (XLSX.sheet_to_json ws) = None ∧
        featureIndexColOf (XLSX.sheet_to_json ws) = None) →
     succeeded (exportUploadedExcelWithEstimates (Some file) rows outputFileName)
       = true).
Proof.
  split_and!.
  - done.
  - done.
  - intros file Hrows Hnames. unfold exportUploadedExcelWithEstimates.
    destruct rows; [done|].
    by rewrite pipeline_run, preferredSheetName_nil.
  - intros file sheetName Hrows Hsel Hne Hws.
    unfold exportUploadedExcelWithEstimates. destruct rows; [done|].
    rewrite pipeline_run, Hsel. destruct sheetName; [done|]. by rewrite Hws.
  - intros file sheetName ws Hrows Hsel Hne Hws Haoa Hfc Hfic.
    unfold exportUploadedExcelWithEstimates. destruct rows; [done|].
    rewrite pipeline_run, Hsel. destruct sheetName; [done|]. rewrite Hws. simpl.
    by rewrite bool_decide_false, bool_decide_true.
  - intros file e mem. apply export_Threw_inv.
  - intros file sheetName ws Hrows Hsel Hne Hws Haoa Hcols.
    unfold exportUploadedExcelWithEstimates. destruct rows; [done|].
    rewrite pipeline_run, Hsel. destruct sheetName; [done|]. rewrite Hws. simpl.
    by rewrite !bool_decide_false.
Qed.

(** A sheet whose header row is [Notes] has no key column. *)
Lemma export_errors_witness :
  exportUploadedExcelWithEstimates
    (Some (Examples.upload "plan.xlsx" [("Notes", Examples.notes)]))
    [Examples.login] None
  = Threw MissingKeyColumn
      (Some (arrayBuffer (Examples.upload "plan.xlsx" [("Notes", Examples.notes)]))).
Proof.
  apply (proj1 (proj2 (proj2 (proj2 (proj2
           (export_errors [Examples.login] None)))))
           (Examples.upload "plan.xlsx" [("Notes", Examples.notes)])
           "Notes" Examples.notes).
  - discriminate.
  - reflexivity.
  - discriminate.
  - vm_compute. reflexivity.
  - vm_compute. discriminate.
  - vm_compute. reflexivity.
  - vm_compute. reflexivity.
Defined.

(** ** Sheet selection (C8) *)




Example cover_sheet_untouched :
  outputSheet
    (exportUploadedExcelWithEstimates
       (Some (Examples.upload "plan.xlsx"
                [("Cover", Examples.notes); ("Features", Examples.features)]))
       [Examples.login; Examples.logout] None) "Cover"
  = Some Examples.notes ∧
  outputSheet
    (exportUploadedExcelWithEstimates
       (Some (Examples.upload "plan.xlsx"
                [("Cover", Examples.notes); ("Features", Examples.features)]))
       [Examples.login; Examples.logout] None) "Features"
  = Some (annotatedSheet [Examples.login; Examples.logout] Examples.features).
Proof. vm_compute. done. Qed.

(** * Further properties of the engine *)

(** ** Column matching *)

Lemma findIndex_Some {A} (p : A → bool) (l : list A) i :
  findIndex p l = Some i ↔
  ∃ x, l !! i = Some x ∧ p x = true ∧
       ∀ j y, j < i → l !! j = Some y → p y = false.
Proof.
  revert i. induction l as [|x l IH]; intros i; simpl.
  { split; [done|]. by intros (? & ? & _). }
  destruct (p x) eqn:Hx.
  - split.
    + intros [= <-]. exists x. split_and!; [done|done|]. intros; lia.
    + intros (y & Hi & Hy & Hbefore). destruct i as [|i]; [done|].
      specialize (Hbefore 0 x). simpl in Hbefore.
      rewrite Hbefore in Hx by (done || lia). done.
  - split.
    + destruct (findIndex p l) as [i'|]; [|done]. simpl. intros [= <-].
      destruct (proj1 (IH i') eq_refl) as (y & Hi & Hy & Hbefore).
      exists y. split_and!; [done|done|].
      intros [|j] z Hj Hz; simpl in *; [by simplify_eq|].
      eapply Hbefore; [|done]. lia.
    + intros (y & Hi & Hy & Hbefore). destruct i as [|i]; simpl in Hi.
      { simplify_eq. congruence. }
      rewrite (proj2 (IH i)); [done|].
      exists y. split_and!; [done|done|].
      intros j z Hj Hz. apply (Hbefore (S j)); [lia|done].
Qed.

Lemma findIndex_None {A} (p : A → bool) (l : list A) :
  findIndex p l = None ↔ ∀ j x, l !! j = Some x → p x = false.
Proof.
  induction l as [|x l IH]; simpl; [done|].
  destruct (p x) eqn:Hx.
  - split; [done|]. intros H. specialize (H 0 x). simpl in H.
    rewrite H in Hx; done.
  - split.
    + intros Hnone [|j] y Hj; simpl in *; [by simplify_eq|].
      destruct (findIndex p l); [done|]. by eapply (proj1 IH).
    + intros H. rewrite (proj2 IH); [done|].
      intros j y Hj. by apply (H (S j)).
Qed.

(** X1.  [pickColumnIndex] gives the patterns priority over the columns: the
    column found is the first column matching the first pattern that matches
    any column at all, so a column matching a later pattern is passed over
    even when it stands further left; no result means that no pattern
    matches any header cell. *)
Theorem pickColumnIndex_priority headerRow candidates :
  (∀ idx,
     pickColumnIndex headerRow candidates = Some idx →
     ∃ k re cell,
       candidates !! k = Some re ∧
       headerRow !! idx = Some cell ∧
       RegExp.test re (norm cell) = true ∧
       (∀ j c, j < idx → headerRow !! j = Some c →
               RegExp.test re (norm c) = false) ∧
       (∀ k' re' j c, k' < k → candidates !! k' = Some re' →
                      headerRow !! j = Some c →
                      RegExp.test re' (norm c) = false)) ∧
  (pickColumnIndex headerRow candidates = None ↔
   ∀ k re j c, candidates !! k = Some re → headerRow !! j = Some c →
               RegExp.test re (norm c) = false).
Proof.
  unfold pickColumnIndex. split.
  - induction candidates as [|re0 candidates IH]; intros idx; simpl; [done|].
    destruct (findIndex (RegExp.test re0) (norm <$> headerRow)) as [i|] eqn:E.
    + intros [= <-]. apply findIndex_Some in E as (x & Hi & Hx & Hbefore).
      rewrite list_lookup_fmap in Hi.
      destruct (headerRow !! i) as [cell|] eqn:Hcell; simplify_eq/=.
      exists 0, re0, cell. split_and!; [done|done|done| |intros; lia].
      intros j c Hj Hc. apply (Hbefore j); [done|].
      by rewrite list_lookup_fmap, Hc.
    + intros (k & re & cell & Hk & Hcell & Hre & Hcol & Hpat)%IH.
      exists (S k), re, cell. split_and!; [done|done|done|done|].
      intros [|k'] re' j c Hlt Hk' Hc; simpl in Hk'.
      * simplify_eq. eapply (proj1 (findIndex_None _ _) E j).
        by rewrite list_lookup_fmap, Hc.
      * eapply Hpat; [|done|done]. lia.
  - induction candidates as [|re0 candidates IH]; simpl; [done|].
    destruct (findIndex (RegExp.test re0) (norm <$> headerRow)) as [i|] eqn:E.
    + split; [done|]. intros Hall.
      apply findIndex_Some in E as (x & Hi & Hx & _).
      rewrite list_lookup_fmap in Hi.
      destruct (headerRow !! i) as [cell|] eqn:Hcell; simplify_eq/=.
      rewrite (Hall 0 re0 i cell) in Hx; done.
    + rewrite IH. split.
      * intros Hall [|k] re j c Hk Hc; simpl in Hk.
        -- simplify_eq. eapply (proj1 (findIndex_None _ _) E j).
           by rewrite list_lookup_fmap, Hc.
        -- by eapply Hall.
      * intros Hall k re j c Hk Hc. by apply (Hall (S k) re j c).
Qed.

(** The header [Name] stands left of [Feature], and [Feature] is the
    feature-name column: its pattern comes first. *)
Lemma pickColumnIndex_priority_witness :
  ∃ k re cell,
    RegExp.featureCandidates !! k = Some re ∧
    [JStr "Name"; JStr "Feature"] !! 1 = Some cell ∧
    RegExp.test re (norm cell) = true ∧
    (∀ j c, j < 1 → [JStr "Name"; JStr "Feature"] !! j = Some c →
            RegExp.test re (norm c) = false) ∧
    (∀ k' re' j c, k' < k → RegExp.featureCandidates !! k' = Some re' →
                   [JStr "Name"; JStr "Feature"] !! j = Some c →
                   RegExp.test re' (norm c) = false).
Proof.
  apply (proj1 (pickColumnIndex_priority [JStr "Name"; JStr "Feature"]
                  RegExp.featureCandidates) 1).
  vm_compute. reflexivity.
Defined.

Lemma findHeaderRowIndex_before aoa j row :
  j < findHeaderRowIndex aoa → aoa !! j = Some row → isRowEmpty row = true.
Proof.
  unfold findHeaderRowIndex.
  destruct (findHeaderRowIndex_from 0 aoa) as [k|] eqn:E; simpl; [|lia].
  apply findHeaderRowIndex_from_Some in E as (j' & r' & -> & _ & _ & Hbefore).
  intros Hj Hrow. eapply Hbefore; [|done]. lia.
Qed.

Lemma findHeaderRowIndex_from_first i aoa j row :
  aoa !! j = Some row →
  isRowEmpty row = false →
  (∀ j' row', j' < j → aoa !! j' = Some row' → isRowEmpty row' = true) →
  findHeaderRowIndex_from i aoa = Some (i + j).
Proof.
  revert i j. induction aoa as [|r0 aoa IH]; intros i j Hj Hrow Hbefore; [done|].
  simpl. rewrite header_test_nonblank. destruct j as [|j]; simpl in Hj.
  - simplify_eq. rewrite Hrow. simpl. f_equal. lia.
  - rewrite (Hbefore 0 r0) by (done || lia). simpl.
    rewrite (IH (S i) j); [f_equal; lia|done|done|].
    intros j' row' Hlt Hrow'. apply (Hbefore (S j')); [lia|done].
Qed.

Lemma findIndex_app_l {A} (p : A → bool) (l1 l2 : list A) :
  forallb (λ x, negb (p x)) l2 = true →
  findIndex p (l1 ++ l2) = findIndex p l1.
Proof.
  intros H2. induction l1 as [|x l1 IH]; simpl.
  - apply findIndex_None. intros j x Hx.
    rewrite forallb_forall in H2. apply negb_true_iff, H2.
    apply list_elem_of_In. by eapply list_elem_of_lookup_2.
  - by rewrite IH.
Qed.

Lemma pickColumnIndex_go_app_l h1 h2 candidates :
  forallb (λ re, forallb (λ x, negb (RegExp.test re x)) h2) candidates = true →
  pickColumnIndex_go (h1 ++ h2) candidates = pickColumnIndex_go h1 candidates.
Proof.
  induction candidates as [|re candidates IH]; simpl; [done|].
  intros [Hre Hrest]%andb_prop.
  by rewrite findIndex_app_l, IH.
Qed.

(** X2.  Annotating does not move the header nor the key columns: in the
    annotated array the header row is found at the same index, and the
    feature-name and feature-index columns are the same as in the array
    parsed from the upload (none of the appended headers reads as a key
    column).  An annotated sheet can therefore be annotated again with the
    same keys. *)
Theorem annotate_keeps_header_and_keys rows featureCol featureIndexCol aoa :
  aoa ≠ [] →
  findHeaderRowIndex (annotate rows featureCol featureIndexCol aoa)
    = findHeaderRowIndex aoa ∧
  headerRowOf (annotate rows featureCol featureIndexCol aoa)
    = headerRowOf aoa ++ (JStr <$> appendedHeaders) ∧
  featureColOf (annotate rows featureCol featureIndexCol aoa) = featureColOf aoa ∧
  featureIndexColOf (annotate rows featureCol featureIndexCol aoa)
    = featureIndexColOf aoa.
Proof.
  intros Hne.
  pose proof (annotate_lookup_header rows featureCol featureIndexCol aoa Hne) as Hh.
  assert (findHeaderRowIndex (annotate rows featureCol featureIndexCol aoa)
          = findHeaderRowIndex aoa) as Hidx.
  { unfold findHeaderRowIndex at 1.
    rewrite (findHeaderRowIndex_from_first 0 _ (findHeaderRowIndex aoa) _ Hh).
    - done.
    - rewrite isRowEmpty_app. apply andb_false_intro2. by vm_compute.
    - intros j row Hj. rewrite annotate_lookup_before by done.
      by apply findHeaderRowIndex_before. }
  assert (headerRowOf (annotate rows featureCol featureIndexCol aoa)
          = headerRowOf aoa ++ (JStr <$> appendedHeaders)) as Hrow.
  { unfold headerRowOf at 1. by rewrite Hidx, Hh. }
  split_and!; [done|done|..].
  - unfold featureColOf, pickColumnIndex. rewrite Hrow, fmap_app.
    apply pickColumnIndex_go_app_l. by vm_compute.
  - unfold featureIndexColOf, pickColumnIndex. rewrite Hrow, fmap_app.
    apply pickColumnIndex_go_app_l. by vm_compute.
Qed.

Lemma annotate_keeps_header_and_keys_witness :
  findHeaderRowIndex
    (annotate [Examples.login] (Some 1) (Some 0)
       (XLSX.sheet_to_json Examples.featuresBelowSpaces)) = 2.
Proof.
  rewrite (proj1 (annotate_keeps_header_and_keys [Examples.login] (Some 1) (Some 0)
                    (XLSX.sheet_to_json Examples.featuresBelowSpaces)
                    ltac:(by vm_compute))).
  vm_compute. reflexivity.
Defined.

(** ** The resolver and the rows it leaves alone *)

Lemma byFeatureIndex_elem rows n r :
  byFeatureIndex rows !! n = Some r → r ∈ rows ∧ featureIndex r = n.
Proof.
  rewrite byFeatureIndex_lookup. intros H.
  by apply last_Some_elem_of, list_elem_of_filter in H as [??].
Qed.

Lemma byFeatureName_elem rows k r :
  byFeatureName rows !! k = Some r →
  k ≠ "" ∧ r ∈ rows ∧ norm (JStr (featureName r)) = k.
Proof.
  intros H. destruct (decide (k = "")) as [->|Hk].
  { by rewrite byFeatureName_lookup_empty in H. }
  rewrite byFeatureName_lookup in H by done.
  by apply head_Some_elem_of, list_elem_of_filter in H as [??].
Qed.

(** X3.  Whatever step of the chain gives it, the record resolved for a row
    is one of the records handed to the export. *)
Theorem resolved_record_is_listed rows featureCol featureIndexCol
    headerRowIndex r row hit :
  findHit rows (byFeatureName rows) (byFeatureIndex rows) featureCol
    featureIndexCol headerRowIndex r row = Some hit →
  hit ∈ rows.
Proof.
  unfold findHit, indexHit, nameHit, fallbackHit.
  destruct featureIndexCol as [c|].
  - destruct (ToNumber (at_index row c)) as [v|].
    + destruct (byFeatureIndex rows !! v) as [h|] eqn:E.
      * intros [= <-]. by apply byFeatureIndex_elem in E as [??].
      * destruct featureCol as [c'|].
        -- destruct (byFeatureName rows !! _) as [h|] eqn:E'.
           ++ intros [= <-]. by apply byFeatureName_elem in E' as (_ & ? & _).
           ++ intros H%list_elem_of_lookup_2.
              by rewrite sortByFeatureIndex_Permutation in H.
        -- intros H%list_elem_of_lookup_2.
           by rewrite sortByFeatureIndex_Permutation in H.
    + destruct featureCol as [c'|].
      * destruct (byFeatureName rows !! _) as [h|] eqn:E'.
        -- intros [= <-]. by apply byFeatureName_elem in E' as (_ & ? & _).
        -- intros H%list_elem_of_lookup_2.
           by rewrite sortByFeatureIndex_Permutation in H.
      * intros H%list_elem_of_lookup_2.
        by rewrite sortByFeatureIndex_Permutation in H.
  - destruct featureCol as [c'|].
    + destruct (byFeatureName rows !! _) as [h|] eqn:E'.
      * intros [= <-]. by apply byFeatureName_elem in E' as (_ & ? & _).
      * intros H%list_elem_of_lookup_2.
        by rewrite sortByFeatureIndex_Permutation in H.
    + intros H%list_elem_of_lookup_2.
      by rewrite sortByFeatureIndex_Permutation in H.
Qed.

Lemma resolved_record_is_listed_witness :
  Examples.search ∈ [Examples.profile; Examples.search].
Proof.
  apply (resolved_record_is_listed [Examples.profile; Examples.search]
           (Some 0) None 0 1 [JStr "Payments"] Examples.search).
  vm_compute. reflexivity.
Defined.

Lemma pad_to_lookup_ge n row j : n ≤ j → pad_to n row !! j = row !! j.
Proof.
  intros Hj. unfold pad_to. destruct (decide (j < length row)) as [Hlt|Hge].
  - by rewrite lookup_app_l.
  - rewrite (lookup_ge_None_2 row) by lia. apply lookup_ge_None_2.
    rewrite length_app, length_replicate. lia.
Qed.

Lemma pad_to_lookup_pad n row j :
  length row ≤ j < n → pad_to n row !! j = Some (JStr "").
Proof.
  intros Hj. unfold pad_to. rewrite lookup_app_r by lia.
  apply lookup_replicate_2. lia.
Qed.

(** X4.  A row is left without a record exactly when neither key gives one
    and the row's offset from the header is at least the number of records;
    such a (non-blank) row is only padded: every cell added to it is the
    empty string, so the appended columns stay blank. *)
Theorem unresolved_row_stays_blank rows byName byIndex featureCol featureIndexCol
    baseLen headerRowIndex r row :
  (findHit rows byName byIndex featureCol featureIndexCol headerRowIndex r row
     = None ↔
   indexHit byIndex featureIndexCol row = None ∧
   nameHit byName featureCol row = None ∧
   length rows ≤ r - (headerRowIndex + 1)) ∧
  (isRowEmpty row = false →
   findHit rows byName byIndex featureCol featureIndexCol headerRowIndex r row
     = None →
   fillRow rows byName byIndex featureCol featureIndexCol baseLen headerRowIndex
     r row = pad_to (baseLen + length appendedHeaders) row ∧
   ∀ j, length row ≤ j < baseLen + length appendedHeaders →
        fillRow rows byName byIndex featureCol featureIndexCol baseLen
          headerRowIndex r row !! j = Some (JStr "")).
Proof.
  split.
  - unfold findHit, fallbackHit.
    rewrite <-(Permutation_length (sortByFeatureIndex_Permutation rows)).
    destruct (indexHit byIndex featureIndexCol row) as [hit|].
    { split; [done|]. by intros [? _]. }
    destruct (nameHit byName featureCol row) as [hit|].
    { split; [done|]. by intros (_ & ? & _). }
    rewrite lookup_ge_None. split; [by intros ?|by intros (_ & _ & ?)].
  - intros Hrow Hnone.
    assert (fillRow rows byName byIndex featureCol featureIndexCol baseLen
              headerRowIndex r row = pad_to (baseLen + length appendedHeaders) row)
      as Hfill.
    { unfold fillRow. by rewrite Hrow, Hnone. }
    split; [done|]. intros j Hj. rewrite Hfill. by apply pad_to_lookup_pad.
Qed.

(** Two records, three data rows without a key match: the third row finds
    no record. *)
Lemma unresolved_row_stays_blank_witness :
  fillRow [Examples.search; Examples.profile]
    (byFeatureName [Examples.search; Examples.profile])
    (byFeatureIndex [Examples.search; Examples.profile]) (Some 0) None 1 0
    3 [JStr "Payments"]
  = pad_to (1 + length appendedHeaders) [JStr "Payments"] ∧
  ∀ j, length [JStr "Payments"] ≤ j < 1 + length appendedHeaders →
       fillRow [Examples.search; Examples.profile]
         (byFeatureName [Examples.search; Examples.profile])
         (byFeatureIndex [Examples.search; Examples.profile]) (Some 0) None 1 0
         3 [JStr "Payments"] !! j = Some (JStr "").
Proof.
  apply (proj2 (unresolved_row_stays_blank [Examples.search; Examples.profile]
           (byFeatureName [Examples.search; Examples.profile])
           (byFeatureIndex [Examples.search; Examples.profile]) (Some 0) None 1 0
           3 [JStr "Payments"])).
  - vm_compute. reflexivity.
  - vm_compute. reflexivity.
Defined.

(** X5.  Annotating keeps the number of rows, every row above the header and
    every blank row below it exactly as they are; a non-blank row below the
    header is extended to at least the width of the new header row, and its
    cells to the right of the appended columns (a row wider than the new
    header row) are kept. *)
Theorem annotate_rows_frame rows featureCol featureIndexCol aoa :
  length (annotate rows featureCol featureIndexCol aoa) = length aoa ∧
  (∀ i, i < findHeaderRowIndex aoa →
        annotate rows featureCol featureIndexCol aoa !! i = aoa !! i) ∧
  (∀ i row,
     findHeaderRowIndex aoa < i → aoa !! i = Some row → isRowEmpty row = true →
     annotate rows featureCol featureIndexCol aoa !! i = Some row) ∧
  (∀ i row,
     findHeaderRowIndex aoa < i → aoa !! i = Some row → isRowEmpty row = false →
     ∃ row',
       annotate rows featureCol featureIndexCol aoa !! i = Some row' ∧
       length row'
         = length row `max` (length (headerRowOf aoa) + length appendedHeaders) ∧
       ∀ j, length (headerRowOf aoa) + length appendedHeaders ≤ j →
            row' !! j = row !! j).
Proof.
  split_and!.
  - apply annotate_length.
  - intros i Hi. by apply annotate_lookup_before.
  - intros i row Hi Hrow Hblank.
    rewrite annotate_lookup_data, Hrow by done. simpl.
    unfold fillRow. by rewrite Hblank.
  - intros i row Hi Hrow Hnb.
    pose proof (eq_refl : length appendedHeaders = 19) as H19.
    rewrite annotate_lookup_data, Hrow by done. simpl.
    eexists; split; [done|]. fold (headerRowOf aoa).
    unfold fillRow. rewrite Hnb.
    destruct (findHit _ _ _ _ _ _ _ _) as [hit|].
    + split.
      * rewrite write_cells_length, pad_to_length. lia.
      * intros j Hj. rewrite write_cells_lookup_ge.
        -- apply pad_to_lookup_ge. lia.
        -- rewrite hitCells_length. lia.
    + split; [rewrite pad_to_length; lia|].
      intros j Hj. apply pad_to_lookup_ge. lia.
Qed.

Lemma annotate_rows_frame_witness :
  annotate [Examples.login] (Some 1) (Some 0)
    (XLSX.sheet_to_json Examples.featuresBelowSpaces) !! 0
  = XLSX.sheet_to_json Examples.featuresBelowSpaces !! 0.
Proof.
  apply (proj1 (proj2 (annotate_rows_frame [Examples.login] (Some 1) (Some 0)
                         (XLSX.sheet_to_json Examples.featuresBelowSpaces))) 0).
  replace (findHeaderRowIndex _) with 2 by (vm_compute; reflexivity). lia.
Defined.

(** ** The file name *)

Lemma string_app_assoc s1 s2 s3 : (s1 +:+ s2) +:+ s3 = s1 +:+ (s2 +:+ s3).
Proof.
  induction s1 as [|a s1 IH]; [done|].
  change ((String a (s1 +:+ s2)) +:+ s3 = String a (s1 +:+ (s2 +:+ s3))).
  change (String a ((s1 +:+ s2) +:+ s3) = String a (s1 +:+ (s2 +:+ s3))).
  by rewrite IH.
Qed.

Lemma string_rev_app_eq s acc : String.rev_app s acc = String.rev s +:+ acc.
Proof.
  revert acc. induction s as [|a s IH]; intros acc; [done|].
  unfold String.rev. simpl. by rewrite !IH, string_app_assoc.
Qed.

(** X6.  [stripExtension] only ever removes a suffix, and the suffix removed
    is empty or reads [.xlsx] or [.xls] in lower case: a name without a
    spreadsheet extension is returned as it is, and nothing but one trailing
    extension is taken from any name. *)
Theorem stripExtension_suffix fileName :
  ∃ ext,
    fileName = stripExtension fileName +:+ ext ∧
    (ext = "" ∨ toLowerCase ext = ".xlsx" ∨ toLowerCase ext = ".xls").
Proof.
  unfold stripExtension.
  pose proof (string_rev_involutive fileName) as Hrev.
  destruct (String.rev fileName) as [|c1 [|c2 [|c3 [|c4 rest4]]]] eqn:E;
    try (exists ""; split; [by rewrite string_app_nil_r|by left]).
  destruct rest4 as [|c5 rest5].
  - case_bool_decide as H4.
    + exists fileName. split; [done|]. right; right.
      rewrite <-Hrev. exact H4.
    + exists "". split; [by rewrite string_app_nil_r|by left].
  - case_bool_decide as H5.
    + exists (String c5 (String c4 (String c3 (String c2 (String c1 ""))))).
      split; [|right; by left].
      rewrite <-Hrev at 1. unfold String.rev at 1. simpl.
      by rewrite string_rev_app_eq.
    + case_bool_decide as H4.
      * exists (String c4 (String c3 (String c2 (String c1 "")))).
        split; [|right; by right].
        rewrite <-Hrev at 1. unfold String.rev at 1. simpl.
        rewrite string_rev_app_eq. unfold String.rev at 2. simpl.
        by rewrite (string_rev_app_eq rest5 (String c5 "")), string_app_assoc.
      * exists "". split; [by rewrite string_app_nil_r|by left].
Qed.

(** ** The lookups as tables *)

(** X7.  Every entry of the index lookup is a listed record filed under its
    own [featureIndex], and every listed record's index has an entry; every
    entry of the name lookup is a listed record filed under its own
    normalised name, which is never the empty string, and every listed
    record with a non-empty normalised name has an entry under that name.
    A record whose name is blank can thus only be reached by index or by
    position. *)
Theorem lookups_hold_listed_records rows :
  (∀ n r, byFeatureIndex rows !! n = Some r → r ∈ rows ∧ featureIndex r = n) ∧
  (∀ r, r ∈ rows → is_Some (byFeatureIndex rows !! featureIndex r)) ∧
  (∀ k r, byFeatureName rows !! k = Some r →
          k ≠ "" ∧ r ∈ rows ∧ norm (JStr (featureName r)) = k) ∧
  (∀ r, r ∈ rows → norm (JStr (featureName r)) ≠ "" →
        is_Some (byFeatureName rows !! norm (JStr (featureName r)))) ∧
  byFeatureName rows !! "" = None.
Proof.
  split_and!.
  - apply byFeatureIndex_elem.
  - intros r Hr. rewrite byFeatureIndex_lookup.
    destruct (last_filter_elem (has_index (featureIndex r)) rows r Hr eq_refl)
      as (y & -> & _). by eexists.
  - apply byFeatureName_elem.
  - intros r Hr Hk. rewrite byFeatureName_lookup by done.
    apply head_is_Some. intros Hnil.
    by eapply (filter_nil_not_elem_of _ _ r Hnil).
  - apply byFeatureName_lookup_empty.
Qed.

Lemma lookups_hold_listed_records_witness :
  Examples.loginFinal ∈ [Examples.loginDraft; Examples.loginFinal] ∧
  featureIndex Examples.loginFinal = 1%Z.
Proof.
  apply (proj1 (lookups_hold_listed_records
                  [Examples.loginDraft; Examples.loginFinal]) 1%Z).
  vm_compute. reflexivity.
Defined.

(** ** Writing and reading a sheet *)

Lemma max_list_le_bound (l : list nat) n : Forall (λ x, x ≤ n) l → max_list l ≤ n.
Proof. induction 1; simpl; lia. Qed.

Lemma cell_json_json_cell v : v ≠ JUndef → XLSX.cell_json (JStr "") (XLSX.json_cell v) = v.
Proof. by destruct v. Qed.

(** X8.  Reading a sheet right after [writeAoa] has stored an array under
    its name gives that array back with every row padded with empty strings
    to the length of the longest row, provided every row written has a cell
    and no cell is [undefined]; the other sheets read as before. *)
Theorem written_array_reads_back sheetName aoa wb :
  (∀ row, row ∈ aoa → row ≠ [] ∧ JUndef ∉ row) →
  (writeAoa sheetName aoa ≫= λ _, getAoa sheetName) wb
    = ((writeAoa sheetName aoa wb).1,
       inr (pad_to (max_list (length <$> aoa)) <$> aoa)) ∧
  ∀ other, other ≠ sheetName →
    (getAoa other (writeAoa sheetName aoa wb).1).2 = (getAoa other wb).2.
Proof.
  intros Hrows. split.
  - unfold mbind, M_bind, writeAoa, getAoa. simpl. rewrite lookup_insert_eq.
    f_equal. f_equal. unfold XLSX.sheet_to_json, XLSX.aoa_to_sheet.
    assert (XLSX.range_width ((λ row : list JsVal, XLSX.json_cell <$> row) <$> aoa)
            = max_list (length <$> aoa)) as ->.
    { unfold XLSX.range_width. rewrite <-list_fmap_compose. f_equal.
      apply list_fmap_ext. intros _ row _. simpl. by rewrite length_fmap. }
    rewrite filter_all.
    2:{ apply Forall_forall. intros srow (row & -> & Hrow)%list_elem_of_fmap.
        destruct (Hrows row Hrow) as [Hne Hundef].
        destruct row as [|v row]; [done|]. unfold XLSX.isempty. simpl.
        rewrite bool_decide_false; [done|].
        destruct v; [|done..]. exfalso. apply Hundef, list_elem_of_here. }
    rewrite <-list_fmap_compose. apply list_fmap_ext. intros _ row Hrow%list_elem_of_lookup_2.
    simpl. unfold XLSX.make_json_row, pad_to.
    rewrite length_fmap, <-list_fmap_compose. f_equal.
    rewrite <-(list_fmap_id row) at 2. apply list_fmap_ext.
    intros _ v Hv%list_elem_of_lookup_2. simpl. apply cell_json_json_cell.
    intros ->. by apply (Hrows row Hrow).
  - intros other Hother. unfold writeAoa, getAoa. simpl.
    rewrite lookup_insert_ne by done. by destruct (Sheets wb !! other).
Qed.

Lemma written_array_reads_back_witness :
  (writeAoa "Features" [ [JStr "Feature"; JStr "AI Confidence"]; [JStr " "] ]
     ≫= λ _, getAoa "Features")
    (Examples.book [("Features", Examples.notes)])
  = ((writeAoa "Features" [ [JStr "Feature"; JStr "AI Confidence"]; [JStr " "] ]
        (Examples.book [("Features", Examples.notes)])).1,
     inr (pad_to (max_list (length <$>
                     [ [JStr "Feature"; JStr "AI Confidence"]; [JStr " "] ]))
            <$> [ [JStr "Feature"; JStr "AI Confidence"]; [JStr " "] ])).
Proof.
  refine (proj1 (written_array_reads_back "Features"
           [ [JStr "Feature"; JStr "AI Confidence"]; [JStr " "] ]
           (Examples.book [("Features", Examples.notes)]) _)).
  intros row Hrow.
  apply elem_of_cons in Hrow as [->|Hrow].
  { split; [done|]. intros Hin.
    repeat (apply elem_of_cons in Hin as [Hin|Hin]; [discriminate|]).
    by apply elem_of_nil in Hin. }
  apply elem_of_cons in Hrow as [->|Hrow].
  { split; [done|]. intros Hin.
    repeat (apply elem_of_cons in Hin as [Hin|Hin]; [discriminate|]).
    by apply elem_of_nil in Hin. }
  by apply elem_of_nil in Hrow.
Defined.

(** ** Normalisation *)

Lemma string_rev_app_distr s1 s2 :
  String.rev (s1 +:+ s2) = String.rev s2 +:+ String.rev s1.
Proof. by rewrite string_rev_app, string_rev_app_eq. Qed.

Lemma string_rev_cons a s : String.rev (String a s) = String.rev s +:+ String a "".
Proof. unfold String.rev at 1. simpl. apply string_rev_app_eq. Qed.

Lemma string_app_cons a s t : String a s +:+ t = String a (s +:+ t).
Proof. done. Qed.

Lemma trimStart_app x y :
  trimStart (x +:+ y) =
    match trimStart x with
    | "" => trimStart y
    | t => t +:+ y
    end.
Proof.
  induction x as [|a x IH]; [done|].
  rewrite string_app_cons. simpl. by destruct (Ascii.is_space a).
Qed.

Lemma trimEnd_cons a s :
  trimEnd (String a s) =
    match trimEnd s with
    | "" => if Ascii.is_space a then "" else String a ""
    | t => String a t
    end.
Proof.
  unfold trimEnd. rewrite string_rev_cons, trimStart_app.
  destruct (trimStart (String.rev s)) as [|b t]; simpl.
  - by destruct (Ascii.is_space a).
  - rewrite string_rev_app_distr, (string_rev_cons b t).
    change (String.rev (String a "")) with (String a "").
    rewrite string_app_cons. change ("" +:+ ?x) with x.
    by destruct (String.rev t).
Qed.

Lemma trimEnd_struct_eq s : trimEnd s = trimEnd_struct s.
Proof.
  induction s as [|a s IH]; [done|]. by rewrite trimEnd_cons, IH.
Qed.

Lemma lower_char_space a : Ascii.is_space (lower_char a) = Ascii.is_space a.
Proof. by destruct a as [[] [] [] [] [] [] [] []]. Qed.

Lemma lower_char_idem a : lower_char (lower_char a) = lower_char a.
Proof. by destruct a as [[] [] [] [] [] [] [] []]. Qed.

Lemma toLowerCase_idem s : toLowerCase (toLowerCase s) = toLowerCase s.
Proof. induction s as [|a s IH]; simpl; [done|]. by rewrite lower_char_idem, IH. Qed.

Lemma toLowerCase_collapse_go b s :
  toLowerCase (collapse_go b s) = collapse_go b (toLowerCase s).
Proof.
  revert b. induction s as [|a s IH]; intros b; simpl; [done|].
  rewrite lower_char_space. destruct (Ascii.is_space a), b; simpl; by rewrite ?IH.
Qed.

Lemma toLowerCase_trimStart s :
  toLowerCase (trimStart s) = trimStart (toLowerCase s).
Proof.
  induction s as [|a s IH]; simpl; [done|].
  rewrite lower_char_space. by destruct (Ascii.is_space a).
Qed.

Lemma toLowerCase_trimEnd s : toLowerCase (trimEnd s) = trimEnd (toLowerCase s).
Proof.
  rewrite !trimEnd_struct_eq.
  induction s as [|a s IH]; simpl; [done|].
  rewrite <-IH, lower_char_space.
  destruct (trimEnd_struct s); simpl; [|done].
  by destruct (Ascii.is_space a).
Qed.

Lemma norm_lower_first s :
  norm (JStr s) = trim (collapse_ws (toLowerCase s)).
Proof.
  unfold norm, trim, collapse_ws. simpl.
  by rewrite toLowerCase_trimEnd, toLowerCase_trimStart, toLowerCase_collapse_go.
Qed.

(** X9.  Matching ignores letter case: two texts that are equal up to the
    case of their letters have the same normal form, hence the same header
    pattern matches and the same name key. *)
Theorem norm_ignores_case s s' :
  toLowerCase s = toLowerCase s' → norm (JStr s) = norm (JStr s').
Proof. intros H. by rewrite !norm_lower_first, H. Qed.

Lemma norm_ignores_case_witness :
  norm (JStr "Feature NAME") = norm (JStr "feature name").
Proof. apply norm_ignores_case. reflexivity. Defined.

Lemma collapse_go_length b s :
  String.length (collapse_go b s) ≤ String.length s.
Proof.
  revert b. induction s as [|a s IH]; intros b; simpl; [done|].
  pose proof (IH true). pose proof (IH false).
  destruct (Ascii.is_space a), b; simpl; lia.
Qed.

Lemma collapsed_after_space_head a t :
  collapse_go true (String a t) = String a t → Ascii.is_space a = false.
Proof.
  simpl. destruct (Ascii.is_space a); [|done]. intros H.
  pose proof (collapse_go_length true t) as Hlen. rewrite H in Hlen.
  simpl in Hlen. lia.
Qed.

Lemma collapsed_after_space_collapsed t :
  collapse_go true t = t → collapse_go false t = t.
Proof.
  destruct t as [|a t]; [done|]. intros H.
  pose proof (collapsed_after_space_head a t H) as Ha.
  simpl in *. by rewrite Ha in *.
Qed.

Lemma collapse_go_idem s :
  collapse_go false (collapse_go false s) = collapse_go false s ∧
  collapse_go true (collapse_go true s) = collapse_go true s.
Proof.
  induction s as [|a s [IHf IHt]]; [done|]. simpl.
  destruct (Ascii.is_space a) eqn:Ha; simpl.
  - by rewrite IHt.
  - by rewrite Ha, IHf.
Qed.

Lemma trimStart_length s : String.length (trimStart s) ≤ String.length s.
Proof. induction s as [|a s IH]; simpl; [done|]. destruct (Ascii.is_space a); simpl; lia. Qed.

Lemma trimStart_fixed_head a t :
  trimStart (String a t) = String a t → Ascii.is_space a = false.
Proof.
  simpl. destruct (Ascii.is_space a); [|done]. intros H.
  pose proof (trimStart_length t) as Hlen. rewrite H in Hlen. simpl in Hlen. lia.
Qed.

Lemma trimStart_idem s : trimStart (trimStart s) = trimStart s.
Proof.
  induction s as [|a s IH]; simpl; [done|].
  destruct (Ascii.is_space a) eqn:Ha; [done|]. simpl. by rewrite Ha.
Qed.

Lemma collapsed_trimStart t :
  collapse_go false t = t → collapse_go false (trimStart t) = trimStart t.
Proof.
  destruct t as [|a t]; [done|]. simpl.
  destruct (Ascii.is_space a) eqn:Ha; [|intros H; simpl; by rewrite Ha].
  intros [= _ Ht]. destruct t as [|b t]; [done|].
  pose proof (collapsed_after_space_head b t Ht) as Hb.
  simpl. rewrite Hb. by apply collapsed_after_space_collapsed.
Qed.

Lemma collapse_go_nonspace b a s :
  Ascii.is_space a = false →
  collapse_go b (String a s) = String a (collapse_go false s).
Proof. intros Ha. simpl. by rewrite Ha. Qed.

Lemma collapse_go_false_space a s :
  Ascii.is_space a = true →
  collapse_go false (String a s) = String " " (collapse_go true s).
Proof. intros Ha. simpl. by rewrite Ha. Qed.

Lemma collapsed_trimEnd t :
  (collapse_go false t = t →
   collapse_go false (trimEnd_struct t) = trimEnd_struct t) ∧
  (collapse_go true t = t →
   collapse_go true (trimEnd_struct t) = trimEnd_struct t).
Proof.
  induction t as [|a t [IHf IHt]]; [done|]. split.
  - intros H. destruct (Ascii.is_space a) eqn:Ha.
    + rewrite collapse_go_false_space in H by done.
      injection H as <- Ht. specialize (IHt Ht). cbn [trimEnd_struct].
      destruct (trimEnd_struct t) as [|b r]; [done|].
      rewrite collapse_go_false_space by done. by rewrite IHt.
    + rewrite collapse_go_nonspace in H by done.
      injection H as Ht. specialize (IHf Ht). cbn [trimEnd_struct].
      destruct (trimEnd_struct t) as [|b r]; rewrite ?Ha;
        rewrite collapse_go_nonspace by done; [done|by rewrite IHf].
  - intros H. pose proof (collapsed_after_space_head a t H) as Ha.
    rewrite collapse_go_nonspace in H by done.
    injection H as Ht. specialize (IHf Ht). cbn [trimEnd_struct].
    destruct (trimEnd_struct t) as [|b r]; rewrite ?Ha;
      rewrite collapse_go_nonspace by done; [done|by rewrite IHf].
Qed.

Lemma trimStart_trimEnd_struct t :
  trimStart t = t → trimStart (trimEnd_struct t) = trimEnd_struct t.
Proof.
  destruct t as [|a t]; [done|]. intros Ha%trimStart_fixed_head.
  cbn [trimEnd_struct]. destruct (trimEnd_struct t); rewrite ?Ha; simpl;
    by rewrite Ha.
Qed.

Lemma trimEnd_struct_idem t : trimEnd_struct (trimEnd_struct t) = trimEnd_struct t.
Proof.
  induction t as [|a t IH]; [done|]. simpl.
  destruct (trimEnd_struct t) as [|b r] eqn:E.
  - destruct (Ascii.is_space a) eqn:Ha; simpl; [done|]. by rewrite Ha.
  - change (trimEnd_struct (String a (String b r))) with
      (match trimEnd_struct (String b r) with
       | "" => if Ascii.is_space a then "" else String a ""
       | t0 => String a t0
       end).
    by rewrite IH.
Qed.

Lemma trim_collapse_fixed s :
  trim (collapse_ws (trim (collapse_ws s))) = trim (collapse_ws s).
Proof.
  unfold trim, collapse_ws. rewrite !trimEnd_struct_eq.
  assert (collapse_go false (trimEnd_struct (trimStart (collapse_go false s)))
          = trimEnd_struct (trimStart (collapse_go false s))) as ->.
  { apply collapsed_trimEnd, collapsed_trimStart, collapse_go_idem. }
  rewrite trimStart_trimEnd_struct by apply trimStart_idem.
  apply trimEnd_struct_idem.
Qed.

(** X10.  Normalising is idempotent: a normal form is its own normal form.
    The keys of the name lookup and the normalised header cells are thus
    fixed points that a second normalisation cannot change. *)
Theorem norm_idempotent v : norm (JStr (norm v)) = norm v.
Proof.
  change (norm v) with (toLowerCase (trim (collapse_ws (to_String v)))).
  rewrite norm_lower_first, toLowerCase_idem, <-norm_lower_first.
  unfold norm. cbn [to_String]. by rewrite trim_collapse_fixed.
Qed.

(** * Properties of the results page *)

(** ** File-name parts *)

Lemma slice0_length n s : String.length (Page.slice0 n s) ≤ n.
Proof.
  revert s. induction n as [|n IH]; intros [|a s]; simpl; try lia.
  specialize (IH s). lia.
Qed.

Lemma slice0_all n s : String.length s ≤ n → Page.slice0 n s = s.
Proof.
  revert s. induction n as [|n IH]; intros [|a s] Hlen; simpl in *; try done; try lia.
  rewrite IH; [done|lia].
Qed.

Lemma slice0_Forall (P : ascii → Prop) n s :
  Forall P (chars s) → Forall P (chars (Page.slice0 n s)).
Proof.
  revert s. induction n as [|n IH]; intros [|a s] H; simpl; try constructor.
  - by inversion H.
  - apply IH. by inversion H.
Qed.

Lemma is_safe_underscore : Page.is_safe "_" = true.
Proof. reflexivity. Qed.

Lemma replace_unsafe_safe s :
  Forall (λ a, Page.is_safe a = true) (chars (Page.replace_unsafe s)).
Proof.
  induction s as [|a s IH]; simpl; constructor; [|done].
  destruct (Page.is_safe a) eqn:Ha; [done|apply is_safe_underscore].
Qed.

Lemma replace_unsafe_fixed s :
  Forall (λ a, Page.is_safe a = true) (chars s) → Page.replace_unsafe s = s.
Proof.
  induction s as [|a s IH]; simpl; [done|].
  intros H. inversion H as [|?? Ha Hs]; subst. by rewrite Ha, IH.
Qed.

(** X11.  [safeFilePart] returns at most 80 characters, each a letter, a
    digit, a dot, an underscore or a hyphen; it leaves a string of at most 80
    such characters as it is and applying it twice changes nothing more. *)
Theorem safeFilePart_safe s :
  String.length (Page.safeFilePart s) ≤ 80 ∧
  Forall (λ a, Page.is_safe a = true) (chars (Page.safeFilePart s)) ∧
  Page.safeFilePart (Page.safeFilePart s) = Page.safeFilePart s ∧
  (Forall (λ a, Page.is_safe a = true) (chars s) → String.length s ≤ 80 →
   Page.safeFilePart s = s).
Proof.
  assert (∀ t, Forall (λ a, Page.is_safe a = true) (chars t) →
               String.length t ≤ 80 → Page.safeFilePart t = t) as Hfix.
  { intros t Ht Hlen. unfold Page.safeFilePart.
    rewrite replace_unsafe_fixed by done. by apply slice0_all. }
  assert (Forall (λ a, Page.is_safe a = true) (chars (Page.safeFilePart s))) as Hsafe.
  { apply slice0_Forall, replace_unsafe_safe. }
  split_and!; [apply slice0_length|done| |apply Hfix].
  apply Hfix; [done|apply slice0_length].
Qed.

Lemma safeFilePart_safe_witness : Page.safeFilePart "session-42_a.b" = "session-42_a.b".
Proof.
  apply (proj2 (proj2 (proj2 (safeFilePart_safe "session-42_a.b")))).
  - vm_compute. repeat constructor.
  - vm_compute. lia.
Defined.

(** ** Totals *)








(** ** Editing a range *)





(** ** Taking over a regenerated row *)

(** X14.  The updater of [regenerate] keeps the number of rows and replaces
    the first row carrying the regenerated feature index, and only that row:
    later rows with the same index stay as they are; when no row carries
    the index the list is unchanged, and without a list there is nothing to
    update. *)
Theorem replaceRegenerated_first next featureIndex' updatedRow :
  Page.replaceRegenerated None featureIndex' updatedRow = None ∧
  ∃ next',
    Page.replaceRegenerated (Some next) featureIndex' updatedRow = Some next' ∧
    length next' = length next ∧
    (∀ i r,
       next !! i = Some r →
       Page.featureIndex r = featureIndex' →
       (∀ j r', j < i → next !! j = Some r' →
                Page.featureIndex r' ≠ featureIndex') →
       next' !! i = Some updatedRow ∧ ∀ j, j ≠ i → next' !! j = next !! j) ∧
    ((∀ j r, next !! j = Some r → Page.featureIndex r ≠ featureIndex') →
     next' = next).
Proof.
  split; [done|]. unfold Page.replaceRegenerated.
  destruct (findIndex _ next) as [i0|] eqn:E.
  - apply findIndex_Some in E as (r0 & Hi0 & Hr0%bool_decide_eq_true & Hbefore).
    eexists. split; [done|]. split_and!.
    + by rewrite length_insert.
    + intros i r Hi Hr Hfirst.
      assert (i = i0) as ->.
      { destruct (lt_eq_lt_dec i i0) as [[Hlt| ->]|Hgt]; [|done|].
        - specialize (Hbefore i r Hlt Hi).
          apply bool_decide_eq_false in Hbefore. done.
        - by destruct (Hfirst i0 r0 Hgt Hi0). }
      split.
      * apply list_lookup_insert_eq. by eapply lookup_lt_Some.
      * intros j Hj. by apply list_lookup_insert_ne.
    + intros Hnone. by destruct (Hnone i0 r0 Hi0).
  - eexists. split; [done|]. split_and!; [done| |done].
    intros i r Hi Hr _.
    pose proof (proj1 (findIndex_None _ _) E i r Hi) as Hf.
    apply bool_decide_eq_false in Hf. done.
Qed.

Lemma replaceRegenerated_first_witness :
  ∃ next',
    Page.replaceRegenerated (Some PageExamples.draft3) 1
      (PageExamples.row 1 "Login" 8) = Some next' ∧
    next' !! 1 = Some (PageExamples.row 1 "Login" 8) ∧
    next' !! 2 = PageExamples.draft3 !! 2.
Proof.
  destruct (proj2 (replaceRegenerated_first PageExamples.draft3 1
                     (PageExamples.row 1 "Login" 8)))
    as (next' & Hrep & _ & Hfirst & _).
  exists next'. split; [exact Hrep|].
  destruct (Hfirst 1 (PageExamples.row 1 "Login" 3) eq_refl eq_refl) as [H1 Hrest].
  { intros [|j] r' Hj Hr'; [|lia]. simpl in Hr'. by simplify_eq. }
  split; [exact H1|]. by apply Hrest.
Defined.

(** ** Calling the export from the page *)

Lemma export_Threw_kind file rows outputFileName e mem :
  rows ≠ [] →
  exportUploadedExcelWithEstimates (Some file) rows outputFileName = Threw e mem →
  e ≠ MissingFile ∧ e ≠ NoEstimatesProvided.
Proof.
  intros Hrows. unfold exportUploadedExcelWithEstimates.
  destruct rows as [|r rows]; [done|]. rewrite pipeline_run.
  destruct (preferredSheetName _) as [[|a s]|]; [by intros [= <- _]| |by intros [= <- _]].
  destruct (Sheets _ !! String a s) as [ws|]; [|by intros [= <- _]]. simpl.
  repeat case_bool_decide; by intros [=]; subst.
Qed.

(** X15.  The page guards the export: it calls the engine only with a
    loaded, non-empty draft, an uploaded file and two equal, non-empty
    (trimmed) session ids, and without an output name.  So the engine's
    [MissingFile] and [NoEstimatesProvided] never reach the user through
    this page, and every download is named after the uploaded file with the
    suffix [_with_estimates.xlsx]. *)
Theorem page_export_guards st :
  (∀ msg,
     exportAnnotatedOriginalExcel st = ShowError msg →
     msg ≠ message MissingFile ∧ msg ≠ message NoEstimatesProvided) ∧
  (∀ wb filename,
     exportAnnotatedOriginalExcel st = Exported wb filename →
     ∃ rows file,
       draft st = Some rows ∧ rows ≠ [] ∧
       uploadedExcelFile st = Some file ∧
       trim (activeSessionId st) = trim (uploadedExcelSessionId st) ∧
       trim (activeSessionId st) ≠ "" ∧
       exportUploadedExcelWithEstimates (Some file) (asEngineRow <$> rows) None
         = Downloaded wb filename ∧
       filename = stripExtension (name file) +:+ "_with_estimates.xlsx").
Proof.
  unfold exportAnnotatedOriginalExcel. split.
  - intros msg.
    destruct (draft st) as [[|r rows]|]; [by intros [= <-]| |by intros [= <-]].
    destruct (uploadedExcelFile st) as [file|]; [|by intros [= <-]].
    destruct (_ || _ || _); [by intros [= <-]|].
    destruct (exportUploadedExcelWithEstimates _ _ _) as [e mem|] eqn:E; [|done].
    apply export_Threw_kind in E as [H1 H2]; [|done].
    intros [= <-]. by destruct e.
  - intros wb filename.
    destruct (draft st) as [[|r rows]|]; [done| |done].
    destruct (uploadedExcelFile st) as [file|]; [|done].
    destruct (bool_decide (trim (activeSessionId st) = "")) eqn:H1; [done|].
    destruct (bool_decide (trim (uploadedExcelSessionId st) = "")) eqn:H2; [done|].
    destruct (bool_decide (trim (activeSessionId st)
                           = trim (uploadedExcelSessionId st))) eqn:H3; [|done].
    cbn [negb orb].
    destruct (exportUploadedExcelWithEstimates _ _ _) as [|wb' fn] eqn:E; [done|].
    intros [= <- <-]. exists (r :: rows), file.
    apply bool_decide_eq_false in H1. apply bool_decide_eq_true in H3.
    split_and!; [done..|].
    by apply export_Downloaded_inv in E as (_ & _ & _ & _ & _ & _ & _ & _ & _ & ->).
Qed.

Lemma page_export_guards_witness :
  ∃ wb rows file,
    exportAnnotatedOriginalExcel PageExamples.ready
      = Exported wb "plan_with_estimates.xlsx" ∧
    draft PageExamples.ready = Some rows ∧ rows ≠ [] ∧
    uploadedExcelFile PageExamples.ready = Some file.
Proof.
  destruct (exportAnnotatedOriginalExcel PageExamples.ready) as [msg|wb fn] eqn:E.
  { vm_compute in E. discriminate. }
  destruct (proj2 (page_export_guards PageExamples.ready) wb fn E)
    as (rows & file & Hd & Hne & Hf & _ & _ & _ & Hfn).
  exists wb, rows, file. split_and!; [|exact Hd|exact Hne|exact Hf].
  rewrite Hfn. cbn in Hf. injection Hf as <-. reflexivity.
Defined.

Lemma rangesProperty_engineTag row d : rangesProperty row (engineTag d) = None.
Proof. by destruct d. Qed.

(** X16.  None of the property names under which the engine reads the hours
    ([frontend], [backend], [mobile], [htmlCss], [aiMl]) is a department tag
    of the page's rows, so for a row coming from the page every department
    range reads as [undefined]: the fifteen department cells the engine
    writes for it are empty strings, and only the confidence, complexity,
    technical remarks and user remark carry values. *)
Theorem page_rows_fill_no_department_cell row :
  (∀ d, ranges (asEngineRow row) d = None) ∧
  hitCells (asEngineRow row)
  = replicate 15 (JStr "")
    ++ [ JStr (Page.confidence row); JStr (Page.complexity row);
         JStr (Page.techRemarks row); JStr (Page.userRemark row) ].
Proof.
  split.
  - intros d. apply rangesProperty_engineTag.
  - destruct row. by vm_compute.
Qed.

(** The scenario exported through the page: the department columns of the
    matched rows are blank. *)
Example page_export_sample :
  match exportAnnotatedOriginalExcel PageExamples.ready with
  | Exported wb _ => Sheets wb !! "Features" ≫= λ ws, ws !! 1
  | ShowError _ => None
  end
  = Some ([Num 1; Text "Login"; Text "-"] ++ replicate 15 (Text "")
          ++ [Text "High"; Text "Simple"; Text "none"; Text ""]).
Proof. vm_compute. done. Qed.

(** ** Loading the results *)




Example load_sample :
  (λ row, (Page.featureIndex row, Page.confidence row,
           Page.ranges row Page.Node))
    <$> Page.mapItems ∅ [PageExamples.bare; PageExamples.bare]
  = [ (0%Z, "Medium", HoursRange.mk 7 7 7); (1%Z, "Medium", HoursRange.mk 7 7 7) ].
Proof. vm_compute. done. Qed.

(** ** Joining URLs *)

Lemma stripTrailingSlash_slash s : Api.stripTrailingSlash (s +:+ "/") = s.
Proof.
  unfold Api.stripTrailingSlash. rewrite string_rev_app_distr.
  change (String.rev "/") with "/". rewrite string_app_cons.
  apply string_rev_involutive.
Qed.

Lemma stripTrailingSlash_none s :
  (∀ b, s ≠ b +:+ "/") → Api.stripTrailingSlash s = s.
Proof.
  intros Hs. unfold Api.stripTrailingSlash.
  destruct (String.rev s) as [|a r] eqn:E; [done|].
  destruct (decide (a = "/"%char)) as [->|Hne].
  - exfalso. apply (Hs (String.rev r)).
    rewrite <-(string_rev_involutive s), E, string_rev_cons. done.
  - by destruct a as [[] [] [] [] [] [] [] []].
Qed.

Lemma isAbsolute_slash path : Api.isAbsolute ("/" +:+ path) = false.
Proof. done. Qed.

(** X18.  [joinUrl] returns an absolute [http://] or [https://] path (in any
    letter case) as it is; otherwise it puts exactly one slash between the
    base and the path, whether the base ends with a slash, the path starts
    with one, both or neither. *)
Theorem joinUrl_one_slash baseUrl path :
  (Api.isAbsolute path = true → Api.joinUrl baseUrl path = path) ∧
  (Api.isAbsolute path = false →
   Api.startsWith "/" path = false →
   (∀ b, baseUrl ≠ b +:+ "/") →
   Api.joinUrl baseUrl path = baseUrl +:+ "/" +:+ path ∧
   Api.joinUrl (baseUrl +:+ "/") path = baseUrl +:+ "/" +:+ path ∧
   Api.joinUrl baseUrl ("/" +:+ path) = baseUrl +:+ "/" +:+ path ∧
   Api.joinUrl (baseUrl +:+ "/") ("/" +:+ path) = baseUrl +:+ "/" +:+ path).
Proof.
  split.
  - intros Habs. unfold Api.joinUrl. by rewrite Habs.
  - intros Habs Hrel Hbase. unfold Api.joinUrl.
    rewrite Habs, Hrel, isAbsolute_slash.
    change (Api.startsWith "/" ("/" +:+ path)) with true. cbn [negb].
    by rewrite stripTrailingSlash_slash, stripTrailingSlash_none.
Qed.

Lemma joinUrl_one_slash_witness :
  Api.joinUrl "http://localhost:3000" "estimate/status/s-1"
    = "http://localhost:3000" +:+ "/" +:+ "estimate/status/s-1" ∧
  Api.joinUrl ("http://localhost:3000" +:+ "/") "estimate/status/s-1"
    = "http://localhost:3000" +:+ "/" +:+ "estimate/status/s-1" ∧
  Api.joinUrl "http://localhost:3000" ("/" +:+ "estimate/status/s-1")
    = "http://localhost:3000" +:+ "/" +:+ "estimate/status/s-1" ∧
  Api.joinUrl ("http://localhost:3000" +:+ "/") ("/" +:+ "estimate/status/s-1")
    = "http://localhost:3000" +:+ "/" +:+ "estimate/status/s-1".
Proof.
  apply (proj2 (joinUrl_one_slash "http://localhost:3000" "estimate/status/s-1")).
  - reflexivity.
  - reflexivity.
  - intros b Hb. apply (f_equal String.rev) in Hb.
    rewrite string_rev_app_distr in Hb. vm_compute in Hb.
    destruct (String.rev_app b ""); discriminate.
Defined.

(** ** Department choices *)

Lemma NoDup_page_departments : NoDup Page.DEPARTMENTS.
Proof. apply (bool_decide_unpack _). by vm_compute. Qed.

Lemma page_departments_all d : d ∈ Page.DEPARTMENTS.
Proof. destruct d; apply (bool_decide_unpack _); by vm_compute. Qed.

(** X19.  The departments offered for selection are every department of the
    application: the detected ones first, in their order, then the others in
    the order of the full list.  When the detected list has no duplicates,
    each department is offered exactly once. *)
Theorem departmentChoices_complete detected :
  (∀ d, d ∈ Estimate.departmentChoices detected) ∧
  take (length detected) (Estimate.departmentChoices detected) = detected ∧
  drop (length detected) (Estimate.departmentChoices detected)
    = filter (λ d, d ∉ detected) Page.DEPARTMENTS ∧
  (NoDup detected →
   NoDup (Estimate.departmentChoices detected) ∧
   Estimate.departmentChoices detected ≡ₚ Page.DEPARTMENTS).
Proof.
  unfold Estimate.departmentChoices.
  assert (∀ d, d ∈ detected ++ filter (λ d, d ∉ detected) Page.DEPARTMENTS) as Hall.
  { intros d. apply elem_of_app. destruct (decide (d ∈ detected)); [by left|].
    right. apply list_elem_of_filter. split; [done|apply page_departments_all]. }
  split_and!; [done|by rewrite take_app_length|by rewrite drop_app_length|].
  intros Hnd.
  assert (NoDup (detected ++ filter (λ d, d ∉ detected) Page.DEPARTMENTS)) as Hnd'.
  { apply NoDup_app. split_and!; [done| |].
    - intros d Hd [Hnot _]%list_elem_of_filter. done.
    - apply NoDup_filter, NoDup_page_departments. }
  split; [done|].
  apply NoDup_Permutation; [done|apply NoDup_page_departments|].
  intros d. split; intros _; [apply page_departments_all|apply Hall].
Qed.

Lemma departmentChoices_complete_witness :
  NoDup (Estimate.departmentChoices [Page.Node; Page.React]) ∧
  Estimate.departmentChoices [Page.Node; Page.React] ≡ₚ Page.DEPARTMENTS.
Proof.
  apply (proj2 (proj2 (proj2 (departmentChoices_complete [Page.Node; Page.React])))).
  apply (bool_decide_unpack _). by vm_compute.
Defined.

(** ** Polling delays *)


